(** * dep-audit: a shallow embedding of [src/dep-audit.js]

    The tool reads a manifest, a config file, the output of [npm audit] and
    the npm registry, and writes a report.  Everything it handles is a value
    produced by [JSON.parse] (or a string literal of the program), so the
    embedding starts with the JavaScript values such documents denote and the
    handful of language operations the program applies to them.

    Conventions of the model:
    - numbers are the safe integers (the documents read here carry no
      fractions);
    - an object is the list of its own properties in creation order, with
      pairwise distinct keys; a property read looks at the own properties
      and then up the prototype chain.  A member found there is a function
      or an object of the runtime (ECMAScript 2023); the program only tests
      such a value and reads [severity] or [license] from it, which none
      has, so an object without own properties stands for it;
    - two objects or arrays met by [===] always come from different
      documents, hence are never the same reference;
    - a rejected promise or a thrown exception is the [Throw] outcome;
    - writing a file succeeds, and what the program prints on the console is
      left out: it reads the results and changes nothing. *)

From Stdlib Require Import List String Ascii ZArith NArith Bool Lia.
From Stdlib Require Import Decimal DecimalString Permutation Sorted.
Import ListNotations.
Local Open Scope string_scope.

(** ** Outcomes of fallible code *)

Inductive error : Type :=
| TypeError
| SyntaxError
| SystemError
| RequestError
| ExecError.

Inductive result (A : Type) : Type :=
| Ok (a : A)
| Throw (e : error).

Arguments Ok {A} a.
Arguments Throw {A} e.

Definition bind {A B : Type} (r : result A) (k : A -> result B) : result B :=
  match r with
  | Ok a => k a
  | Throw e => Throw e
  end.

(** [try { body } catch { handler }] *)
Definition try_catch {A : Type} (body : result A) (handler : result A)
  : result A :=
  match body with
  | Ok a => Ok a
  | Throw _ => handler
  end.

Declare Scope js_scope.
Delimit Scope js_scope with js.
Notation "x <- c ;; k" := (bind c (fun x => k))
  (at level 61, c at next level, right associativity) : js_scope.
Notation "' pat <- c ;; k" := (bind c (fun x => match x with pat => k end))
  (at level 61, pat pattern, c at next level, right associativity) : js_scope.
Local Open Scope js_scope.

(** ** JavaScript values *)

Module JS.

Set Warnings "-register-all".

Inductive value : Type :=
| VUndefined
| VNull
| VBool (b : bool)
| VNum (z : Z)
| VStr (s : string)
| VArr (xs : list value)
| VObj (fields : list (string * value)).

Definition props : Type := list (string * value).

(** [a === b] *)
Definition strict_eq (a b : value) : bool :=
  match a, b with
  | VUndefined, VUndefined => true
  | VNull, VNull => true
  | VBool x, VBool y => Bool.eqb x y
  | VNum x, VNum y => Z.eqb x y
  | VStr x, VStr y => String.eqb x y
  | _, _ => false
  end.

(** ToBoolean *)
Definition truthy (v : value) : bool :=
  match v with
  | VUndefined | VNull => false
  | VBool b => b
  | VNum z => negb (Z.eqb z 0)
  | VStr s => negb (String.eqb s "")
  | VArr _ | VObj _ => true
  end.

(** ToString, which is also ToPropertyKey on these values *)
Fixpoint to_string (v : value) : string :=
  match v with
  | VUndefined => "undefined"
  | VNull => "null"
  | VBool true => "true"
  | VBool false => "false"
  | VNum z => NilZero.string_of_int (Z.to_int z)
  | VStr s => s
  | VArr xs =>
      let element x :=
        match x with
        | VUndefined | VNull => ""
        | _ => to_string x
        end in
      (fix join (l : list value) : string :=
         match l with
         | [] => ""
         | [x] => element x
         | x :: l' => element x ++ "," ++ join l'
         end) xs
  | VObj _ => "[object Object]"
  end.

(** A canonical array index: the decimal form of an integer below 2^32 - 1. *)
Definition array_index (k : string) : option N :=
  match NilZero.uint_of_string k with
  | Some d =>
      let n := N.of_uint d in
      if String.eqb (NilZero.string_of_uint (N.to_uint n)) k
         && N.ltb n 4294967295
      then Some n else None
  | None => None
  end.

Definition index_key (i : nat) : string :=
  NilZero.string_of_uint (Nat.to_uint i).

Fixpoint lookup (k : string) (fs : props) : option value :=
  match fs with
  | [] => None
  | (k', v) :: fs' => if String.eqb k' k then Some v else lookup k fs'
  end.

Definition keys (fs : props) : list string := map fst fs.

Definition or_undefined (o : option value) : value :=
  match o with
  | Some v => v
  | None => VUndefined
  end.

Fixpoint chars (s : string) : list value :=
  match s with
  | EmptyString => []
  | String c s' => VStr (String c EmptyString) :: chars s'
  end.

(** *** The prototype chain

    The names of the members of the built-in prototypes.  Every value but
    [null] and [undefined] ends its chain in [Object.prototype]. *)

Definition Object_prototype : list string :=
  ["constructor"; "__defineGetter__"; "__defineSetter__"; "hasOwnProperty";
   "__lookupGetter__"; "__lookupSetter__"; "isPrototypeOf";
   "propertyIsEnumerable"; "toString"; "valueOf"; "__proto__";
   "toLocaleString"].

Definition Array_prototype : list string :=
  ["at"; "concat"; "copyWithin"; "entries"; "every"; "fill"; "filter";
   "find"; "findIndex"; "findLast"; "findLastIndex"; "flat"; "flatMap";
   "forEach"; "includes"; "indexOf"; "join"; "keys"; "lastIndexOf"; "map";
   "pop"; "push"; "reduce"; "reduceRight"; "reverse"; "shift"; "slice";
   "some"; "sort"; "splice"; "toReversed"; "toSorted"; "toSpliced";
   "unshift"; "values"; "with"].

Definition String_prototype : list string :=
  ["anchor"; "at"; "big"; "blink"; "bold"; "charAt"; "charCodeAt";
   "codePointAt"; "concat"; "endsWith"; "fixed"; "fontcolor"; "fontsize";
   "includes"; "indexOf"; "italics"; "lastIndexOf"; "link"; "localeCompare";
   "match"; "matchAll"; "normalize"; "padEnd"; "padStart"; "repeat";
   "replace"; "replaceAll"; "search"; "slice"; "small"; "split";
   "startsWith"; "strike"; "sub"; "substr"; "substring"; "sup";
   "toLocaleLowerCase"; "toLocaleUpperCase"; "toLowerCase"; "toUpperCase";
   "trim"; "trimEnd"; "trimLeft"; "trimRight"; "trimStart"].

Definition Number_prototype : list string :=
  ["toExponential"; "toFixed"; "toPrecision"].

Definition Boolean_prototype : list string := [].

Definition member (k : string) (names : list string) : bool :=
  existsb (String.eqb k) names.

(** What a read of [k] finds above a value that has no own property [k] and
    whose own prototype has the members [prototype]. *)
Definition inherited (prototype : list string) (k : string) : value :=
  if member k prototype || member k Object_prototype
  then VObj []
  else VUndefined.

(** The own properties of an array or of a string are its indices and
    [length]. *)
Definition indexed_get (prototype : list string) (xs : list value)
  (k : string) : value :=
  if String.eqb k "length" then VNum (Z.of_nat (List.length xs))
  else match array_index k with
       | Some n => nth (N.to_nat n) xs VUndefined
       | None => inherited prototype k
       end.

(** [v[k]] and [v.k] *)
Definition get_prop (v : value) (k : string) : result value :=
  match v with
  | VUndefined | VNull => Throw TypeError
  | VBool _ => Ok (inherited Boolean_prototype k)
  | VNum _ => Ok (inherited Number_prototype k)
  | VStr s => Ok (indexed_get String_prototype (chars s) k)
  | VArr xs => Ok (indexed_get Array_prototype xs k)
  | VObj fs =>
      Ok (match lookup k fs with
          | Some v => v
          | None => inherited [] k
          end)
  end.

(** [v?.k] *)
Definition get_prop_opt (v : value) (k : string) : result value :=
  match v with
  | VUndefined | VNull => Ok VUndefined
  | _ => get_prop v k
  end.

(** [a || b] on values *)
Definition or_else (a b : value) : value :=
  if truthy a then a else b.

(** [String.prototype.includes] *)
Fixpoint is_substring (t s : string) : bool :=
  String.prefix t s
  || match s with
     | EmptyString => false
     | String _ s' => is_substring t s'
     end.

(** [Array.prototype.includes], which compares with SameValueZero; without
    NaN that is [===]. *)
Definition array_includes (xs : list value) (x : value) : bool :=
  existsb (fun y => strict_eq y x) xs.

(** [recv.includes(x)]: the method exists on arrays and on strings. *)
Definition includes (recv x : value) : result bool :=
  match recv with
  | VArr xs => Ok (array_includes xs x)
  | VStr s => Ok (is_substring (to_string x) s)
  | _ => Throw TypeError
  end.

(** [recv.push(x)]: the method exists on arrays; the result is the array
    after the call. *)
Definition push (recv x : value) : result value :=
  match recv with
  | VArr xs => Ok (VArr (xs ++ [x])%list)
  | _ => Throw TypeError
  end.

(** *** Property order

    CreateDataProperty keeps the place of a key that exists and appends a
    new one; enumeration lists array-index keys first, in ascending numeric
    order, then the other keys in creation order. *)

Fixpoint set_prop (fs : props) (k : string) (v : value) : props :=
  match fs with
  | [] => [(k, v)]
  | (k', v') :: fs' =>
      if String.eqb k' k then (k', v) :: fs' else (k', v') :: set_prop fs' k v
  end.

Definition is_index (k : string) : bool :=
  match array_index k with
  | Some _ => true
  | None => false
  end.

Definition index_part (fs : props) : list (N * (string * value)) :=
  flat_map (fun e => match array_index (fst e) with
                     | Some n => [(n, e)]
                     | None => []
                     end) fs.

Fixpoint insert_index (e : N * (string * value))
  (l : list (N * (string * value))) : list (N * (string * value)) :=
  match l with
  | [] => [e]
  | e' :: l' =>
      if N.ltb (fst e) (fst e') then e :: l else e' :: insert_index e l'
  end.

Definition index_sort (l : list (N * (string * value)))
  : list (N * (string * value)) :=
  fold_right insert_index [] l.

Definition ordered_entries (fs : props) : props :=
  (map snd (index_sort (index_part fs))
   ++ filter (fun e => negb (is_index (fst e))) fs)%list.

Fixpoint indexed_from (i : nat) (xs : list value) : props :=
  match xs with
  | [] => []
  | x :: xs' => (index_key i, x) :: indexed_from (S i) xs'
  end.

(** The own enumerable string-keyed properties of [ToObject(v)], in
    enumeration order; [Object.entries(v)]. *)
Definition entries (v : value) : props :=
  match v with
  | VObj fs => ordered_entries fs
  | VArr xs => indexed_from 0 xs
  | VStr s => indexed_from 0 (chars s)
  | _ => []
  end.

(** [{ ...target, ...source }]: CopyDataProperties into the literal. *)
Definition assign (target : props) (e : string * value) : props :=
  set_prop target (fst e) (snd e).

Definition spread (target : props) (source : value) : props :=
  fold_left assign (entries source) target.

(** *** Serialisation

    What [JSON.parse] reads back from what [JSON.stringify] wrote: a
    property whose value is [undefined] is left out, an [undefined] array
    element becomes [null]. *)
Definition defined (v : value) : bool :=
  match v with
  | VUndefined => false
  | _ => true
  end.

Definition drop_undefined (fs : props) : props :=
  filter (fun e => defined (snd e)) fs.

Fixpoint json_image (v : value) : value :=
  match v with
  | VArr xs =>
      VArr (map (fun x => match x with
                          | VUndefined => VNull
                          | _ => json_image x
                          end) xs)
  | VObj fs =>
      VObj (drop_undefined
              (ordered_entries
                 ((fix each (l : props) : props :=
                     match l with
                     | [] => []
                     | (k, x) :: l' => (k, json_image x) :: each l'
                     end) fs)))
  | _ => v
  end.

End JS.

Import JS.

(** ** The world outside the process *)

(** A text as [JSON.parse] sees it. *)
Inductive document : Type :=
| Unparseable
| Parsed (v : value).

(** [files]: the working directory, by file name ([None]: no such file);
    [registry]: the body of the response to a GET of
    [https://registry.npmjs.org/<name>] ([None]: the request is rejected, by
    the network or by a status outside 2xx); [npm_audit]: the standard output
    of [npm audit --json] ([None]: [execSync] throws). *)
Record world : Type := {
  files : string -> option document;
  registry : string -> option value;
  npm_audit : option document
}.

Definition JSON_parse (d : document) : result value :=
  match d with
  | Unparseable => Throw SyntaxError
  | Parsed v => Ok v
  end.

(** [fs.readJson(path)] *)
Definition readJson (w : world) (path : string) : result value :=
  match files w path with
  | None => Throw SystemError
  | Some d => JSON_parse d
  end.

(** [fs.writeJson(path, v)], for a write that succeeds; a path that cannot
    be written is outside the model. *)
Definition writeJson (w : world) (path : string) (v : value) : world :=
  {| files := fun p => if String.eqb p path then Some (Parsed (json_image v))
                       else files w p;
     registry := registry w;
     npm_audit := npm_audit w |}.

(** [axios.get], then [response.data] *)
Definition axios_get (w : world) (name : string) : result value :=
  match registry w name with
  | None => Throw RequestError
  | Some data => Ok data
  end.

(** [execSync('npm audit --json', ...)] *)
Definition execSync_npm_audit (w : world) : result document :=
  match npm_audit w with
  | None => Throw ExecError
  | Some out => Ok out
  end.

(** ** The program *)

Definition CONFIG_FILE : string := ".dep-audit.json".
Definition REPORT_FILE : string := "dependency-audit-report.json".
Definition PACKAGE_FILE : string := "package.json".

Definition Unknown : value := VStr "Unknown".

Definition default_config : value :=
  VObj [("ignored", VArr []);
        ("allowedLicenses",
         VArr [VStr "MIT"; VStr "Apache-2.0"; VStr "BSD-2-Clause";
               VStr "BSD-3-Clause"])].

Definition loadConfig (w : world) : result value :=
  try_catch (readJson w CONFIG_FILE) (Ok default_config).

Definition saveConfig (w : world) (config : value) : result world :=
  Ok (writeJson w CONFIG_FILE config).

Definition fetchPackageInfo (w : world) (name : string) (version : value)
  : result (value * value) :=
  try_catch
    (data <- axios_get w name ;;
     dist_tags <- get_prop data "dist-tags" ;;
     latest <- get_prop dist_tags "latest" ;;
     versions <- get_prop data "versions" ;;
     entry <- get_prop versions (to_string version) ;;
     declared <- get_prop_opt entry "license" ;;
     Ok (latest, or_else declared Unknown))
    (Ok (Unknown, Unknown)).

Definition runNpmAudit (w : world) : result value :=
  try_catch
    (audit <- execSync_npm_audit w ;;
     parsed <- JSON_parse audit ;;
     found <- get_prop parsed "vulnerabilities" ;;
     Ok (or_else found (VObj [])))
    (Ok (VObj [])).

(** One element of [results]. *)
Record verdict : Type := {
  name : string;
  version : value;
  latest : value;
  isOutdated : bool;
  hasVulnerability : value;
  license : value;
  isLicenseAllowed : bool
}.

(** The object literal pushed on [results]. *)
Definition verdict_props (r : verdict) : props :=
  [("name", VStr (name r));
   ("version", version r);
   ("latest", latest r);
   ("isOutdated", VBool (isOutdated r));
   ("hasVulnerability", hasVulnerability r);
   ("license", license r);
   ("isLicenseAllowed", VBool (isLicenseAllowed r))].

Definition verdict_object (r : verdict) : value :=
  VObj (verdict_props r).

Section Scan.

Variable w : world.
Variables config vulnerabilities : value.

(** The body of the [for] loop: [None] is [continue], [Some r] is the
    verdict pushed. *)
Definition scan_entry (e : string * value) : result (option verdict) :=
  let '(name, version) := e in
  ignored <- get_prop config "ignored" ;;
  skip <- includes ignored (VStr name) ;;
  if skip then Ok None
  else
    ' (latest, license) <- fetchPackageInfo w name version ;;
    let isOutdated :=
      negb (strict_eq latest version) && negb (strict_eq latest Unknown) in
    found <- get_prop vulnerabilities name ;;
    hasVulnerability <-
      (if truthy found then get_prop found "severity" else Ok VNull) ;;
    allowedLicenses <- get_prop config "allowedLicenses" ;;
    allowed <- includes allowedLicenses license ;;
    let isLicenseAllowed := allowed || strict_eq license Unknown in
    Ok (Some {| name := name;
                version := version;
                latest := latest;
                isOutdated := isOutdated;
                hasVulnerability := hasVulnerability;
                license := license;
                isLicenseAllowed := isLicenseAllowed |}).

Fixpoint scan_loop (es : props) (results : list verdict)
  : result (list verdict) :=
  match es with
  | [] => Ok results
  | e :: es' =>
      pushed <- scan_entry e ;;
      match pushed with
      | None => scan_loop es' results
      | Some r => scan_loop es' (results ++ [r])
      end
  end.

End Scan.

(** [{ ...pkg.dependencies, ...pkg.devDependencies }] *)
Definition merged_dependencies (pkg : value) : result value :=
  deps <- get_prop pkg "dependencies" ;;
  devDeps <- get_prop pkg "devDependencies" ;;
  Ok (VObj (spread (spread [] deps) devDeps)).

(** [fs.readJson(... 'package.json').catch(() => ({}))] *)
Definition read_manifest (w : world) : result value :=
  try_catch (readJson w PACKAGE_FILE) (Ok (VObj [])).

(** The scan up to the point where [results] is complete. *)
Definition scan_results (w : world) : result (list verdict) :=
  pkg <- read_manifest w ;;
  dependencies <- merged_dependencies pkg ;;
  config <- loadConfig w ;;
  vulnerabilities <- runNpmAudit w ;;
  scan_loop w config vulnerabilities (entries dependencies) [].

(** [scanDependencies]: the results and the world with the report written.
    The console summary that follows reads [results] and changes nothing. *)
Definition scanDependencies (w : world) : result (list verdict * world) :=
  results <- scan_results w ;;
  Ok (results, writeJson w REPORT_FILE (VArr (map verdict_object results))).

(** [options] of the [config] command, as commander fills it. *)
Record options : Type := {
  ignore : option string;
  addLicense : option string
}.

(** [if (options.x)]: a string that is present and not empty. *)
Definition given (o : option string) : option string :=
  match o with
  | Some s => if String.eqb s "" then None else Some s
  | None => None
  end.

(** [config.field.push(x)]: the config object after the call. *)
Definition push_field (config : value) (field x : string) : result value :=
  target <- get_prop config field ;;
  target' <- push target (VStr x) ;;
  match config with
  | VObj fs => Ok (VObj (set_prop fs field target'))
  | _ => Ok config
  end.

Definition updateConfig (w : world) (opts : options) : result world :=
  config <- loadConfig w ;;
  config1 <- match given (ignore opts) with
             | Some x => push_field config "ignored" x
             | None => Ok config
             end ;;
  config2 <- match given (addLicense opts) with
             | Some x => push_field config1 "allowedLicenses" x
             | None => Ok config1
             end ;;
  saveConfig w config2.

(** *** Console and read-only commands

    A console line is its colour ([chalk]) and its text; a command gives the
    lines of a run that completes.  File names stand for their paths under
    the working directory. *)

Inductive colour : Type :=
| Plain
| Green
| Cyan
| Yellow
| Red.

Definition line : Type := (colour * string)%type.

(** The callback loop of [Array.prototype.filter]. *)
Fixpoint filter_values (callback : value -> result bool) (xs : list value)
  : result (list value) :=
  match xs with
  | [] => Ok []
  | x :: xs' =>
      keep <- callback x ;;
      rest <- filter_values callback xs' ;;
      Ok (if keep then x :: rest else rest)
  end.

(** [recv.filter(callback)]: the method exists on arrays. *)
Definition filter_method (recv : value) (callback : value -> result bool)
  : result (list value) :=
  match recv with
  | VArr xs => filter_values callback xs
  | _ => Throw TypeError
  end.

(** [xs.forEach(callback)], with what each call produces. *)
Fixpoint for_each {A : Type} (callback : value -> result A) (xs : list value)
  : result (list A) :=
  match xs with
  | [] => Ok []
  | x :: xs' =>
      a <- callback x ;;
      rest <- for_each callback xs' ;;
      Ok (a :: rest)
  end.

(** [recv.forEach(callback)]: the method exists on arrays. *)
Definition forEach_method {A : Type} (recv : value)
  (callback : value -> result A) : result (list A) :=
  match recv with
  | VArr xs => for_each callback xs
  | _ => Throw TypeError
  end.

(** An element under [Array.prototype.join]. *)
Definition element_string (x : value) : string :=
  match x with
  | VUndefined | VNull => ""
  | _ => to_string x
  end.

Fixpoint join_with (sep : string) (xs : list value) : string :=
  match xs with
  | [] => ""
  | [x] => element_string x
  | x :: xs' => element_string x ++ sep ++ join_with sep xs'
  end.

(** [recv.join(sep)]: the method exists on arrays. *)
Definition join_method (recv : value) (sep : string) : result string :=
  match recv with
  | VArr xs => Ok (join_with sep xs)
  | _ => Throw TypeError
  end.

(** The [length] of an array the program has built. *)
Definition number_of (n : nat) : value := VNum (Z.of_nat n).

(** [dep => dep.field] and [dep => !dep.field] as filter callbacks. *)
Definition flagged (field : string) (dep : value) : result bool :=
  flag <- get_prop dep field ;;
  Ok (truthy flag).

Definition not_flagged (field : string) (dep : value) : result bool :=
  flag <- get_prop dep field ;;
  Ok (negb (truthy flag)).



(** [fs.readJson(REPORT_FILE).catch(() => [])] *)
Definition read_report (w : world) : result value :=
  try_catch (readJson w REPORT_FILE) (Ok (VArr [])).

Definition checkOutdated (w : world) : result (list line) :=
  results <- read_report w ;;
  outdated <- filter_method results (flagged "isOutdated") ;;
  if negb (truthy (number_of (List.length outdated)))
  then Ok [(Green, "No outdated packages found!")]
  else
    printed <- for_each
                 (fun dep =>
                    name <- get_prop dep "name" ;;
                    version <- get_prop dep "version" ;;
                    latest <- get_prop dep "latest" ;;
                    Ok (Plain, to_string name ++ ": " ++ to_string version
                               ++ " -> " ++ to_string latest))
                 outdated ;;
    Ok ((Cyan, "Outdated Packages:") :: printed).

Definition checkLicenses (w : world) : result (list line) :=
  config <- loadConfig w ;;
  results <- read_report w ;;
  nonCompliant <- filter_method results (not_flagged "isLicenseAllowed") ;;
  if negb (truthy (number_of (List.length nonCompliant)))
  then Ok [(Green, "All licenses are compliant!")]
  else
    printed <- for_each
                 (fun dep =>
                    name <- get_prop dep "name" ;;
                    license <- get_prop dep "license" ;;
                    allowedLicenses <- get_prop config "allowedLicenses" ;;
                    joined <- join_method allowedLicenses ", " ;;
                    Ok (Plain, to_string name ++ ": " ++ to_string license
                               ++ " (Allowed: " ++ joined ++ ")"))
                 nonCompliant ;;
    Ok ((Cyan, "Non-Compliant Licenses:") :: printed).

Definition MARKDOWN_FILE : string := "dependency-audit-report.md".

(** The line feed of the template literals. *)
Definition nl : string := String (ascii_of_nat 10) EmptyString.

(** [fs.writeFile] of the Markdown text: a text that opens with [#] is not
    JSON. *)
Definition write_markdown (w : world) : world :=
  {| files := fun p => if String.eqb p MARKDOWN_FILE then Some Unparseable
                       else files w p;
     registry := registry w;
     npm_audit := npm_audit w |}.

(** One pass of the [forEach] of [generateReport]. *)
Definition detail_section (dep : value) : result string :=
  name <- get_prop dep "name" ;;
  version <- get_prop dep "version" ;;
  latest <- get_prop dep "latest" ;;
  hasVulnerability <- get_prop dep "hasVulnerability" ;;
  license <- get_prop dep "license" ;;
  isLicenseAllowed <- get_prop dep "isLicenseAllowed" ;;
  Ok ("### " ++ to_string name ++ "@" ++ to_string version ++ nl
      ++ "- Latest: " ++ to_string latest ++ nl
      ++ "- Vulnerability: "
      ++ to_string (or_else hasVulnerability (VStr "None")) ++ nl
      ++ "- License: " ++ to_string license ++ " ("
      ++ (if truthy isLicenseAllowed then "Allowed" else "Not Allowed")
      ++ ")" ++ nl ++ nl).

(** [generateReport]: the Markdown text and the world with the file
    written; [now] is [new Date().toISOString()]. *)
Definition generateReport (now : string) (w : world)
  : result (string * world) :=
  results <- read_report w ;;
  let markdown := "# Dependency Audit Report" ++ nl ++ nl in
  let markdown := markdown ++ "Generated: " ++ now ++ nl ++ nl in
  let markdown := markdown ++ "## Summary" ++ nl in
  total <- get_prop results "length" ;;
  let markdown :=
    markdown ++ "- Total Dependencies: " ++ to_string total ++ nl in
  outdated <- filter_method results (flagged "isOutdated") ;;
  let markdown :=
    markdown ++ "- Outdated: "
    ++ to_string (number_of (List.length outdated)) ++ nl in
  vulnerable <- filter_method results (flagged "hasVulnerability") ;;
  let markdown :=
    markdown ++ "- Vulnerabilities: "
    ++ to_string (number_of (List.length vulnerable)) ++ nl in
  nonCompliant <- filter_method results (not_flagged "isLicenseAllowed") ;;
  let markdown :=
    markdown ++ "- Non-Compliant Licenses: "
    ++ to_string (number_of (List.length nonCompliant)) ++ nl ++ nl in
  let markdown := markdown ++ "## Details" ++ nl in
  sections <- forEach_method results detail_section ;;
  let markdown := markdown ++ String.concat "" sections in
  Ok (markdown, write_markdown w).

(** The world a scan leaves behind: the report is written. *)
Definition reported (w : world) (results : list verdict) : world :=
  writeJson w REPORT_FILE (VArr (map verdict_object results)).

(** ** Sample worlds *)

Module Samples.

Definition no_files : string -> option document := fun _ => None.

Definition with_file (path : string) (d : document)
  (fs : string -> option document) : string -> option document :=
  fun p => if String.eqb p path then Some d else fs p.

Definition manifest (deps devDeps : value) : document :=
  Parsed (VObj [("name", VStr "demo");
                ("dependencies", deps);
                ("devDependencies", devDeps)]).

Definition registry_entry (latest : string) (versions : props) : value :=
  VObj [("dist-tags", VObj [("latest", VStr latest)]);
        ("versions", VObj versions)].

Definition npm (name : string) : option value :=
  if String.eqb name "lodash" then
    Some (registry_entry "4.17.21"
            [("4.17.0", VObj [("license", VStr "MIT")]);
             ("4.17.21", VObj [("license", VStr "MIT")])])
  else if String.eqb name "badlib" then
    Some (registry_entry "2.0.0"
            [("2.0.0", VObj [("license", VStr "GPL-3.0")])])
  else if String.eqb name "jest" then
    Some (registry_entry "29.7.0"
            [("29.7.0", VObj [("license", VStr "MIT")])])
  else None.

Definition audit_report : document :=
  Parsed (VObj [("vulnerabilities",
                 VObj [("badlib", VObj [("severity", VStr "high")])])]).

Definition deps_demo : value :=
  VObj [("lodash", VStr "4.17.0"); ("left-pad", VStr "1.0.0");
        ("badlib", VStr "2.0.0")].

Definition devDeps_demo : value :=
  VObj [("jest", VStr "29.7.0"); ("lodash", VStr "4.17.21")].

Definition pkg_demo : value :=
  VObj [("name", VStr "demo"); ("dependencies", deps_demo);
        ("devDependencies", devDeps_demo)].

(** lodash behind latest in one group and at latest in the other, left-pad
    unreachable, badlib vulnerable and under a licence outside the default
    list; no config file. *)
Definition w_demo : world :=
  {| files := with_file PACKAGE_FILE (Parsed pkg_demo) no_files;
     registry := npm;
     npm_audit := Some audit_report |}.

Definition with_config (config : value) (w : world) : world :=
  {| files := with_file CONFIG_FILE (Parsed config) (files w);
     registry := registry w;
     npm_audit := npm_audit w |}.

(** lodash alone, one minor behind. *)
Definition w_lodash : world :=
  {| files :=
       with_file PACKAGE_FILE
         (manifest (VObj [("lodash", VStr "4.17.0")]) (VObj []))
         no_files;
     registry := npm;
     npm_audit := Some audit_report |}.

Definition r_lodash : verdict :=
  {| name := "lodash"; version := VStr "4.17.0";
     latest := VStr "4.17.21"; isOutdated := true;
     hasVulnerability := VNull; license := VStr "MIT";
     isLicenseAllowed := true |}.

(** badlib alone. *)
Definition w_badlib : world :=
  {| files :=
       with_file PACKAGE_FILE
         (manifest (VObj [("badlib", VStr "2.0.0")]) (VObj []))
         no_files;
     registry := npm;
     npm_audit := Some audit_report |}.

Definition r_badlib : verdict :=
  {| name := "badlib"; version := VStr "2.0.0";
     latest := VStr "2.0.0"; isOutdated := false;
     hasVulnerability := VStr "high"; license := VStr "GPL-3.0";
     isLicenseAllowed := false |}.

(** A manifest whose only entry gives a number where a version string
    belongs. *)
Definition w_malformed : world :=
  {| files :=
       with_file PACKAGE_FILE
         (manifest (VObj [("lodash", VNum 4)]) VUndefined)
         no_files;
     registry := npm;
     npm_audit := Some audit_report |}.

Definition r_malformed : verdict :=
  {| name := "lodash"; version := VNum 4;
     latest := VStr "4.17.21"; isOutdated := true;
     hasVulnerability := VNull; license := Unknown;
     isLicenseAllowed := true |}.

(** A config file that parses but has none of the two arrays. *)
Definition w_bare_config : world := with_config (VObj []) w_lodash.

(** A config that ignores left-pad. *)
Definition config_ignoring : value :=
  VObj [("ignored", VArr [VStr "left-pad"]);
        ("allowedLicenses", VArr [VStr "MIT"])].

Definition w_ignoring : world := with_config config_ignoring w_demo.

Definition r_lodash_dev : verdict :=
  {| name := "lodash"; version := VStr "4.17.21";
     latest := VStr "4.17.21"; isOutdated := false;
     hasVulnerability := VNull; license := VStr "MIT";
     isLicenseAllowed := true |}.

Definition r_jest : verdict :=
  {| name := "jest"; version := VStr "29.7.0";
     latest := VStr "29.7.0"; isOutdated := false;
     hasVulnerability := VNull; license := VStr "MIT";
     isLicenseAllowed := true |}.

(** A report file that holds an object where the array belongs. *)
Definition w_report_object : world := writeJson w_lodash REPORT_FILE (VObj []).

(** No manifest at all, and a config file that holds [null]. *)
Definition w_no_manifest : world :=
  {| files := with_file CONFIG_FILE (Parsed VNull) no_files;
     registry := npm;
     npm_audit := Some audit_report |}.

(** The audit command fails. *)
Definition w_no_audit : world :=
  {| files := files w_badlib; registry := npm; npm_audit := None |}.

Definition r_badlib_unaudited : verdict :=
  {| name := "badlib"; version := VStr "2.0.0";
     latest := VStr "2.0.0"; isOutdated := false;
     hasVulnerability := VNull; license := VStr "GPL-3.0";
     isLicenseAllowed := false |}.

(** left-pad alone; the registry has no such package. *)
Definition w_left_pad : world :=
  {| files :=
       with_file PACKAGE_FILE
         (manifest (VObj [("left-pad", VStr "1.0.0")]) VUndefined)
         no_files;
     registry := npm;
     npm_audit := Some audit_report |}.

Definition r_left_pad : verdict :=
  {| name := "left-pad"; version := VStr "1.0.0";
     latest := Unknown; isOutdated := false;
     hasVulnerability := VNull; license := Unknown;
     isLicenseAllowed := true |}.

Definition add_gpl : options :=
  {| ignore := None; addLicense := Some "GPL-3.0" |}.

Definition ignore_jest : options :=
  {| ignore := Some "jest"; addLicense := None |}.

(** The default config with one more element in each array. *)
Definition config_updated (ignored licenses : list value) : value :=
  VObj [("ignored", VArr ignored);
        ("allowedLicenses",
         VArr ([VStr "MIT"; VStr "Apache-2.0"; VStr "BSD-2-Clause";
                VStr "BSD-3-Clause"] ++ licenses)%list)].

(** The demo world after [config --ignore jest], and the badlib world
    after a scan followed by [config --add-license GPL-3.0]. *)
Definition w_demo_ignoring_jest : world :=
  writeJson w_demo CONFIG_FILE (config_updated [VStr "jest"] []).

Definition w_badlib_scanned : world := reported w_badlib [r_badlib].

Definition w_badlib_gpl : world :=
  writeJson w_badlib_scanned CONFIG_FILE
    (config_updated [] [VStr "GPL-3.0"]).

Definition results_without_jest : list verdict :=
  [r_lodash_dev;
   {| name := "left-pad"; version := VStr "1.0.0";
      latest := Unknown; isOutdated := false;
      hasVulnerability := VNull; license := Unknown;
      isLicenseAllowed := true |};
   r_badlib].

Definition r_badlib_allowed : verdict :=
  {| name := "badlib"; version := VStr "2.0.0";
     latest := VStr "2.0.0"; isOutdated := false;
     hasVulnerability := VStr "high"; license := VStr "GPL-3.0";
     isLicenseAllowed := true |}.

(** A package named as a member of [Object.prototype]; the audit has no
    entry for it. *)
Definition w_constructor : world :=
  {| files :=
       with_file PACKAGE_FILE
         (manifest (VObj [("constructor", VStr "1.0.0")]) VUndefined)
         no_files;
     registry := npm;
     npm_audit := Some audit_report |}.

Definition r_constructor : verdict :=
  {| name := "constructor"; version := VStr "1.0.0";
     latest := Unknown; isOutdated := false;
     hasVulnerability := VUndefined; license := Unknown;
     isLicenseAllowed := true |}.

(** A development dependency named by an array index. *)
Definition deps_index : props :=
  [("lodash", VStr "4.17.0"); ("b", VStr "1.0.0")].

Definition devDeps_index : props := [("7", VStr "1.0.0")].

Definition pkg_index : value :=
  VObj [("name", VStr "demo"); ("dependencies", VObj deps_index);
        ("devDependencies", VObj devDeps_index)].

Definition w_index : world :=
  {| files :=
       with_file PACKAGE_FILE
         (manifest (VObj deps_index) (VObj devDeps_index)) no_files;
     registry := npm;
     npm_audit := Some audit_report |}.

Definition unknown_verdict (n v : string) : verdict :=
  {| name := n; version := VStr v;
     latest := Unknown; isOutdated := false;
     hasVulnerability := VNull; license := Unknown;
     isLicenseAllowed := true |}.

Definition results_index : list verdict :=
  [unknown_verdict "7" "1.0.0"; r_lodash; unknown_verdict "b" "1.0.0"].

Definition results_demo : list verdict :=
  [r_lodash_dev; unknown_verdict "left-pad" "1.0.0"; r_badlib; r_jest].

Definition results_ignoring : list verdict :=
  [r_lodash_dev; r_badlib; r_jest].

End Samples.

(** ** Vocabulary of the statements *)

(** The verdicts a run of the loop body pushes, in order. *)
Definition collect (os : list (option verdict)) : list verdict :=
  flat_map (fun o => match o with Some r => [r] | None => [] end) os.

(** What the loop body establishes about the verdict [r] it pushes for the
    entry [(n, v)]. *)
Record produced (w : world) (config vulnerabilities : value)
  (n : string) (v : value) (r : verdict) : Prop := {
  produced_name : name r = n;
  produced_version : version r = v;
  produced_kept :
    exists ignored, get_prop config "ignored" = Ok ignored
                    /\ includes ignored (VStr n) = Ok false;
  produced_fetch : fetchPackageInfo w n v = Ok (latest r, license r);
  produced_outdated :
    isOutdated r = negb (strict_eq (latest r) v)
                   && negb (strict_eq (latest r) Unknown);
  produced_severity :
    exists found, get_prop vulnerabilities n = Ok found
                  /\ (if truthy found then get_prop found "severity"
                      else Ok VNull) = Ok (hasVulnerability r);
  produced_allowed :
    exists allowedLicenses allowed,
      get_prop config "allowedLicenses" = Ok allowedLicenses
      /\ includes allowedLicenses (license r) = Ok allowed
      /\ isLicenseAllowed r = allowed || strict_eq (license r) Unknown
}.

(** [null] and [undefined], the values without properties. *)
Definition nullish (v : value) : bool :=
  match v with
  | VUndefined | VNull => true
  | _ => false
  end.

(** The field names of a verdict in the program. *)
Definition report_fields : list string :=
  ["name"; "version"; "latest"; "isOutdated"; "hasVulnerability"; "license";
   "isLicenseAllowed"].

(** The field names of a DependencyVerdict as the data model of the
    specification lists them. *)
Definition DependencyVerdict_fields : list string :=
  ["name"; "declaredVersion"; "latestVersion"; "isOutdated";
   "vulnerabilitySeverity"; "license"; "isLicenseAllowed"].

(** A declaration group in the shape the specification expects: an object
    from names to version strings, or no group at all. *)
Definition name_version_pairs (group : value) : bool :=
  match group with
  | VUndefined => true
  | VObj fs => forallb (fun e => match snd e with
                                 | VStr _ => true
                                 | _ => false
                                 end) fs
  | _ => false
  end.

Definition well_formed_manifest (pkg : value) : bool :=
  match pkg with
  | VObj fs =>
      name_version_pairs (or_undefined (lookup "dependencies" fs))
      && name_version_pairs (or_undefined (lookup "devDependencies" fs))
  | _ => false
  end.

(** Whether an object has an own property [k]. *)
Definition has_key (k : string) (fs : props) : bool :=
  existsb (String.eqb k) (keys fs).

(** Whether the test at the head of the loop lets a name through. *)
Definition kept (config : value) (n : string) : bool :=
  match bind (get_prop config "ignored")
             (fun ignored => includes ignored (VStr n)) with
  | Ok false => true
  | _ => false
  end.

(** The entries of [{ ...deps, ...devDeps }]. *)
Definition merged_entries (deps devDeps : value) : props :=
  entries (VObj (spread (spread [] deps) devDeps)).

(** Not an array index: a key that enumeration leaves in creation order. *)
Definition is_named (k : string) : bool := negb (is_index k).

(** The number an array-index key stands for. *)
Definition index_value (k : string) : N :=
  match array_index k with
  | Some n => n
  | None => 0%N
  end.

(** The order the specification gives the merged declarations: the names
    of the [dependencies] group as declared, followed by the names only the
    [devDependencies] group has, as declared. *)
Definition declaration_order (deps devDeps : props) : list string :=
  (keys deps ++ filter (fun k => negb (has_key k deps)) (keys devDeps))%list.

(** The declarations the loop runs over:
    [Object.entries({ ...pkg.dependencies, ...pkg.devDependencies })]. *)
Definition declared (w : world) : result props :=
  pkg <- read_manifest w ;;
  dependencies <- merged_dependencies pkg ;;
  Ok (entries dependencies).

(** The inputs of the loop as [scan_results] computes them. *)
Record scan_inputs (w : world) (es : props) (config vulnerabilities : value)
  : Prop := {
  inputs_declared : declared w = Ok es;
  inputs_config : loadConfig w = Ok config;
  inputs_vulnerabilities : runNpmAudit w = Ok vulnerabilities
}.

(** A verdict as the report file holds it. *)
Definition written (r : verdict) : value := json_image (verdict_object r).

Definition count {A : Type} (f : A -> bool) (l : list A) : nat :=
  List.length (filter f l).

(** What the [outdated] command prints for the verdicts of a report. *)
Definition outdated_line (r : verdict) : line :=
  (Plain, name r ++ ": " ++ to_string (version r)
          ++ " -> " ++ to_string (latest r)).

Definition outdated_lines (results : list verdict) : list line :=
  match filter isOutdated results with
  | [] => [(Green, "No outdated packages found!")]
  | r :: rs => (Cyan, "Outdated Packages:") :: map outdated_line (r :: rs)
  end.



(** The Markdown report of a list of verdicts. *)
Definition verdict_section (r : verdict) : string :=
  "### " ++ name r ++ "@" ++ to_string (version r) ++ nl
  ++ "- Latest: " ++ to_string (latest r) ++ nl
  ++ "- Vulnerability: "
  ++ to_string (or_else (hasVulnerability r) (VStr "None")) ++ nl
  ++ "- License: " ++ to_string (license r) ++ " ("
  ++ (if isLicenseAllowed r then "Allowed" else "Not Allowed")
  ++ ")" ++ nl ++ nl.

Definition report_markdown (now : string) (results : list verdict) : string :=
  "# Dependency Audit Report" ++ nl ++ nl
  ++ "Generated: " ++ now ++ nl ++ nl
  ++ "## Summary" ++ nl
  ++ "- Total Dependencies: "
  ++ to_string (number_of (List.length results)) ++ nl
  ++ "- Outdated: "
  ++ to_string (number_of (count isOutdated results)) ++ nl
  ++ "- Vulnerabilities: "
  ++ to_string (number_of
                  (count (fun r => truthy (hasVulnerability r)) results))
  ++ nl
  ++ "- Non-Compliant Licenses: "
  ++ to_string (number_of
                  (count (fun r => negb (isLicenseAllowed r)) results))
  ++ nl ++ nl
  ++ "## Details" ++ nl
  ++ String.concat "" (map verdict_section results).

Example scan_demo :
  scan_results Samples.w_demo =
  Ok [ {| name := "lodash"; version := VStr "4.17.21";
          latest := VStr "4.17.21"; isOutdated := false;
          hasVulnerability := VNull; license := VStr "MIT";
          isLicenseAllowed := true |};
       {| name := "left-pad"; version := VStr "1.0.0";
          latest := Unknown; isOutdated := false;
          hasVulnerability := VNull; license := Unknown;
          isLicenseAllowed := true |};
       {| name := "badlib"; version := VStr "2.0.0";
          latest := VStr "2.0.0"; isOutdated := false;
          hasVulnerability := VStr "high"; license := VStr "GPL-3.0";
          isLicenseAllowed := false |};
       {| name := "jest"; version := VStr "29.7.0";
          latest := VStr "29.7.0"; isOutdated := false;
          hasVulnerability := VNull; license := VStr "MIT";
          isLicenseAllowed := true |} ].
Proof. vm_compute. reflexivity. Qed.

Example scan_lodash :
  scanDependencies Samples.w_lodash
  = Ok ([Samples.r_lodash], reported Samples.w_lodash [Samples.r_lodash]).
Proof. vm_compute. reflexivity. Qed.

Example scan_badlib :
  scan_results Samples.w_badlib = Ok [Samples.r_badlib].
Proof. vm_compute. reflexivity. Qed.

Example update_default_config :
  exists w',
    updateConfig Samples.w_lodash
      {| ignore := Some "leftpad"; addLicense := Some "ISC" |} = Ok w'
    /\ files w' CONFIG_FILE
       = Some (Parsed
                 (VObj [("ignored", VArr [VStr "leftpad"]);
                        ("allowedLicenses",
                         VArr [VStr "MIT"; VStr "Apache-2.0";
                               VStr "BSD-2-Clause"; VStr "BSD-3-Clause";
                               VStr "ISC"])])).
Proof. eexists. split; vm_compute; reflexivity. Qed.

Example entries_order :
  keys (entries (VObj [("b", VNull); ("10", VNull); ("a", VNull);
                       ("2", VNull); ("02", VNull)]))
  = ["2"; "10"; "b"; "a"; "02"].
Proof. vm_compute. reflexivity. Qed.

Example array_index_canonical :
  map array_index ["0"; "7"; "07"; "4294967294"; "4294967295"; "1.5"; "lodash"]
  = [Some 0%N; Some 7%N; None; Some 4294967294%N; None; None; None].
Proof. vm_compute. reflexivity. Qed.

Example merge_last_wins :
  merged_entries (VObj [("a", VStr "1"); ("b", VStr "1")])
                 (VObj [("c", VStr "2"); ("a", VStr "2")])
  = [("a", VStr "2"); ("b", VStr "1"); ("c", VStr "2")].
Proof. vm_compute. reflexivity. Qed.

Example to_string_array :
  to_string (VArr [VNum 1; VNull; VStr "x"; VArr [VBool true; VNum (-3)]])
  = "1,,x,true,-3".
Proof. vm_compute. reflexivity. Qed.

(** ** The error monad *)

Lemma bind_Ok {A B : Type} (r : result A) (k : A -> result B) (b : B) :
  bind r k = Ok b -> exists a, r = Ok a /\ k a = Ok b.
Proof.
  destruct r as [a|e]; simpl; intros H.
  - exists a. split; [reflexivity | exact H].
  - discriminate H.
Qed.

Lemma try_catch_total {A : Type} (body : result A) (a : A) :
  exists x, try_catch body (Ok a) = Ok x.
Proof. destruct body as [x|e]; simpl; eauto. Qed.

Ltac bind_inv H :=
  let a := fresh "a" in
  let Ha := fresh "Ha" in
  apply bind_Ok in H; destruct H as [a [Ha H]].

(** ** Values *)

Lemma strict_eq_str_r (x : value) (s : string) :
  strict_eq x (VStr s) = true <-> x = VStr s.
Proof.
  split.
  - destruct x; simpl; try discriminate.
    intros H. apply String.eqb_eq in H. now subst.
  - intros ->. simpl. apply String.eqb_refl.
Qed.

Lemma array_includes_str (xs : list value) (s : string) :
  array_includes xs (VStr s) = true <-> In (VStr s) xs.
Proof.
  unfold array_includes. rewrite existsb_exists. split.
  - intros [y [Hin Heq]]. apply strict_eq_str_r in Heq. now subst.
  - intros Hin. exists (VStr s). split; [exact Hin|].
    now apply strict_eq_str_r.
Qed.



Lemma inherited_not_array (prototype : list string) (k : string)
  (xs : list value) :
  inherited prototype k <> VArr xs.
Proof. unfold inherited. destruct (_ || _); discriminate. Qed.

Lemma truthy_get_prop (v : value) (k : string) :
  truthy v = true -> exists x, get_prop v k = Ok x.
Proof. destruct v; simpl; try discriminate; eauto. Qed.

Lemma or_else_truthy (a b : value) :
  truthy b = true -> truthy (or_else a b) = true.
Proof. unfold or_else. destruct (truthy a) eqn:E; auto. Qed.

(** ** The loop *)

Section Loop.

Variable w : world.
Variables config vulnerabilities : value.

Let body := scan_entry w config vulnerabilities.
Let loop := scan_loop w config vulnerabilities.

Lemma scan_entry_Some (n : string) (v : value) (r : verdict) :
  body (n, v) = Ok (Some r) -> produced w config vulnerabilities n v r.
Proof.
  unfold body, scan_entry. intros H.
  bind_inv H. rename a into ignored, Ha into Hign.
  bind_inv H. rename a into skip, Ha into Hskip.
  destruct skip; [discriminate H|].
  bind_inv H. destruct a as [lat lic]. rename Ha into Hfetch.
  bind_inv H. rename a into found, Ha into Hfound.
  bind_inv H. rename a into sev, Ha into Hsev.
  bind_inv H. rename a into al, Ha into Hal.
  bind_inv H. rename a into allowed, Ha into Hallowed.
  injection H as <-. simpl.
  constructor; simpl; eauto.
Qed.

Lemma scan_entry_None (n : string) (v : value) :
  body (n, v) = Ok None ->
  exists ignored, get_prop config "ignored" = Ok ignored
                  /\ includes ignored (VStr n) = Ok true.
Proof.
  unfold body, scan_entry. intros H.
  bind_inv H. rename a into ignored, Ha into Hign.
  bind_inv H. rename a into skip, Ha into Hskip.
  destruct skip.
  - eauto.
  - bind_inv H. destruct a as [lat lic].
    do 4 bind_inv H. discriminate H.
Qed.

Lemma scan_loop_Ok (es : props) (acc out : list verdict) :
  loop es acc = Ok out ->
  exists os, Forall2 (fun e o => body e = Ok o) es os
             /\ out = (acc ++ collect os)%list.
Proof.
  unfold loop. revert acc. induction es as [|e es IH]; simpl; intros acc H.
  - injection H as <-. exists []. split; [constructor|].
    simpl. now rewrite app_nil_r.
  - bind_inv H. destruct a as [r|].
    + apply IH in H. destruct H as [os [HF ->]].
      exists (Some r :: os). split; [constructor; assumption|].
      simpl. now rewrite <- app_assoc.
    + apply IH in H. destruct H as [os [HF ->]].
      exists (None :: os). split; [constructor; assumption|].
      reflexivity.
Qed.

Lemma scan_loop_complete (es : props) (os : list (option verdict))
  (acc : list verdict) :
  Forall2 (fun e o => body e = Ok o) es os ->
  loop es acc = Ok (acc ++ collect os)%list.
Proof.
  unfold loop. intros HF. revert acc.
  induction HF as [|e o es os He HF IH]; intros acc; simpl.
  - now rewrite app_nil_r.
  - fold body. rewrite He. simpl. destruct o as [r|].
    + rewrite IH. simpl. now rewrite <- app_assoc.
    + apply IH.
Qed.

Lemma collect_In (es : props) (os : list (option verdict)) (r : verdict) :
  Forall2 (fun e o => body e = Ok o) es os ->
  In r (collect os) ->
  exists e, In e es /\ body e = Ok (Some r).
Proof.
  induction 1 as [|e o es os He HF IH]; simpl; intros Hin.
  - contradiction.
  - apply in_app_or in Hin. destruct Hin as [Hin|Hin].
    + destruct o as [r'|]; simpl in Hin; [|contradiction].
      destruct Hin as [->|[]]. exists e. auto.
    + destruct (IH Hin) as [e' [He' Hb]]. exists e'. auto.
Qed.

(** The verdicts are the entries the ignore test lets through. *)
Lemma collect_kept (es : props) (os : list (option verdict)) :
  Forall2 (fun e o => body e = Ok o) es os ->
  map (fun r => (name r, version r)) (collect os)
  = filter (fun e => kept config (fst e)) es.
Proof.
  induction 1 as [|[n v] o es os He HF IH]; simpl; [reflexivity|].
  rewrite map_app, IH. destruct o as [r|]; simpl.
  - apply scan_entry_Some in He.
    destruct He as [Hn Hv [ign [Hget Hinc]] _ _ _ _].
    unfold kept. rewrite Hget. simpl. rewrite Hinc, Hn, Hv. reflexivity.
  - apply scan_entry_None in He. destruct He as [ign [Hget Hinc]].
    unfold kept. rewrite Hget. simpl. rewrite Hinc. reflexivity.
Qed.

Lemma scan_loop_kept (es : props) (out : list verdict) :
  loop es [] = Ok out ->
  map (fun r => (name r, version r)) out
  = filter (fun e => kept config (fst e)) es.
Proof.
  intros H. apply scan_loop_Ok in H. destruct H as [os [HF ->]].
  simpl. now apply collect_kept.
Qed.

(** Every verdict of a completed loop was pushed by the body for one of
    the entries. *)
Lemma scan_loop_In (es : props) (out : list verdict) (r : verdict) :
  loop es [] = Ok out -> In r out ->
  exists n v, In (n, v) es /\ produced w config vulnerabilities n v r.
Proof.
  intros H Hin. apply scan_loop_Ok in H. destruct H as [os [HF ->]].
  simpl in Hin. destruct (collect_In es os r HF Hin) as [[n v] [He Hb]].
  exists n, v. split; [exact He|]. now apply scan_entry_Some.
Qed.

End Loop.

(** ** The scan *)

Lemma scan_results_unfold (w : world) :
  scan_results w
  = (es <- declared w ;;
     config <- loadConfig w ;;
     vulnerabilities <- runNpmAudit w ;;
     scan_loop w config vulnerabilities es []).
Proof.
  unfold scan_results, declared.
  destruct (read_manifest w) as [pkg|e]; simpl; [|reflexivity].
  destruct (merged_dependencies pkg) as [d|e]; reflexivity.
Qed.

Lemma scan_results_inputs (w : world) (es : props)
  (config vulnerabilities : value) :
  scan_inputs w es config vulnerabilities ->
  scan_results w = scan_loop w config vulnerabilities es [].
Proof.
  intros [Hes Hc Hv]. rewrite scan_results_unfold, Hes. simpl.
  rewrite Hc. simpl. rewrite Hv. reflexivity.
Qed.

Lemma scan_results_inv (w : world) (results : list verdict) :
  scan_results w = Ok results ->
  exists es config vulnerabilities,
    scan_inputs w es config vulnerabilities
    /\ scan_loop w config vulnerabilities es [] = Ok results.
Proof.
  rewrite scan_results_unfold. intros H.
  bind_inv H. rename a into es, Ha into Hes.
  bind_inv H. rename a into config, Ha into Hcfg.
  bind_inv H. rename a into vulnerabilities, Ha into Hvul.
  exists es, config, vulnerabilities.
  split; [|exact H]. constructor; assumption.
Qed.

Lemma scanDependencies_results (w : world) (results : list verdict) :
  scan_results w = Ok results ->
  scanDependencies w = Ok (results, reported w results).
Proof. unfold scanDependencies. intros ->. reflexivity. Qed.

Lemma scanDependencies_throws (w : world) (e : error) :
  scan_results w = Throw e -> scanDependencies w = Throw e.
Proof. unfold scanDependencies. intros ->. reflexivity. Qed.

Lemma scanDependencies_inv (w w' : world) (results : list verdict) :
  scanDependencies w = Ok (results, w') ->
  scan_results w = Ok results /\ w' = reported w results.
Proof.
  unfold scanDependencies. intros H. bind_inv H.
  injection H as <- <-. auto.
Qed.

(** Every verdict of a scan comes from an entry of the merged object. *)
Lemma scan_verdict_produced (w w' : world) (results : list verdict)
  (r : verdict) :
  scanDependencies w = Ok (results, w') -> In r results ->
  exists es config vulnerabilities n v,
    scan_inputs w es config vulnerabilities
    /\ In (n, v) es
    /\ produced w config vulnerabilities n v r.
Proof.
  intros H Hin. apply scanDependencies_inv in H. destruct H as [H _].
  apply scan_results_inv in H.
  destruct H as [es [c [vu [Hin' Hloop]]]].
  destruct (scan_loop_In w c vu _ _ r Hloop Hin) as [n [v [He Hp]]].
  exists es, c, vu, n, v. auto.
Qed.

(** The verdicts of a scan are the declared entries the ignore test lets
    through, in order. *)
Lemma scan_sequence (w w' : world) (results : list verdict) :
  scanDependencies w = Ok (results, w') ->
  exists es config,
    declared w = Ok es
    /\ loadConfig w = Ok config
    /\ map (fun r => (name r, version r)) results
       = filter (fun e => kept config (fst e)) es.
Proof.
  intros H. apply scanDependencies_inv in H. destruct H as [H _].
  apply scan_results_inv in H.
  destruct H as [es [c [vu [[Hes Hc _] Hloop]]]].
  exists es, c. split; [exact Hes|]. split; [exact Hc|].
  now apply (scan_loop_kept w c vu).
Qed.

Lemma map_fst_filter {A B : Type} (f : A -> bool) (l : list (A * B)) :
  map fst (filter (fun e => f (fst e)) l) = filter f (map fst l).
Proof.
  induction l as [|[a b] l IH]; simpl; [reflexivity|].
  destruct (f a); simpl; now rewrite IH.
Qed.

(** ** Classification rules *)

(** C1.  A completed scan has one verdict for each declaration that the
    ignore test lets through, in order, with the declaration's name and
    version.  The latest version of a verdict is the one the fetch returned
    for that name and version, and the verdict is outdated exactly when
    that latest version is not [===] to the declared one and is not the
    string "Unknown"; for version strings that is plain inequality of the
    two strings.  In particular the flag is false when the two are equal or
    when latest is "Unknown". *)
Theorem isOutdated_rule (w w' : world) (results : list verdict) :
  scanDependencies w = Ok (results, w') ->
  exists es config,
    declared w = Ok es
    /\ loadConfig w = Ok config
    /\ map (fun r => (name r, version r)) results
       = filter (fun e => kept config (fst e)) es
    /\ (forall r, In r results ->
          fetchPackageInfo w (name r) (version r) = Ok (latest r, license r)
          /\ (isOutdated r = true <->
              strict_eq (latest r) (version r) = false
              /\ latest r <> Unknown)
          /\ (forall l v : string,
                latest r = VStr l -> version r = VStr v ->
                (isOutdated r = true <-> l <> v /\ l <> "Unknown"))
          /\ (strict_eq (latest r) (version r) = true \/ latest r = Unknown ->
              isOutdated r = false)).
Proof.
  intros Hscan.
  destruct (scan_sequence _ _ _ Hscan) as [es [c [Hes [Hc Hseq]]]].
  exists es, c. split; [exact Hes|]. split; [exact Hc|].
  split; [exact Hseq|]. intros r Hin.
  destruct (scan_verdict_produced _ _ _ _ Hscan Hin)
    as [es' [c' [vu [n [v [_ [_ Hp]]]]]]].
  destruct Hp as [Hn Hv _ Hfetch Hout _ _]. subst n v.
  split; [exact Hfetch|].
  assert (Hgen : isOutdated r = true <->
                 strict_eq (latest r) (version r) = false
                 /\ latest r <> Unknown).
  { rewrite Hout, andb_true_iff, !negb_true_iff. unfold Unknown.
    split; intros [H1 H2]; split; auto.
    - intros E. apply strict_eq_str_r in E. congruence.
    - destruct (strict_eq (latest r) (VStr "Unknown")) eqn:E; auto.
      apply strict_eq_str_r in E. contradiction. }
  split; [exact Hgen|]. split.
  - intros l v0 Hl Hv0. rewrite Hgen, Hl, Hv0. unfold Unknown. simpl.
    rewrite String.eqb_neq. split; intros [H1 H2]; split; congruence.
  - intros [H|H].
    + rewrite Hout, H. reflexivity.
    + rewrite Hout, H. simpl. apply andb_false_r.
Qed.

Lemma isOutdated_rule_witness :
  exists es config,
    declared Samples.w_demo = Ok es
    /\ loadConfig Samples.w_demo = Ok config
    /\ map (fun r => (name r, version r)) Samples.results_demo
       = filter (fun e => kept config (fst e)) es
    /\ (forall r, In r Samples.results_demo ->
          fetchPackageInfo Samples.w_demo (name r) (version r)
          = Ok (latest r, license r)
          /\ (isOutdated r = true <->
              strict_eq (latest r) (version r) = false
              /\ latest r <> Unknown)
          /\ (forall l v : string,
                latest r = VStr l -> version r = VStr v ->
                (isOutdated r = true <-> l <> v /\ l <> "Unknown"))
          /\ (strict_eq (latest r) (version r) = true \/ latest r = Unknown ->
              isOutdated r = false)).
Proof.
  apply (isOutdated_rule Samples.w_demo
           (reported Samples.w_demo Samples.results_demo)).
  vm_compute. reflexivity.
Defined.



(** C3.  In a completed scan the names of the verdicts are, in order, the
    declared names that the ignore test lets through: a declaration that
    the test stops adds nothing.  For every verdict the config's [ignored]
    member does not include its name; when the member is an array, the name
    is not an element of it. *)
Theorem ignored_never_reported (w w' : world) (results : list verdict) :
  scanDependencies w = Ok (results, w') ->
  exists es config,
    declared w = Ok es
    /\ loadConfig w = Ok config
    /\ map name results = filter (kept config) (keys es)
    /\ (forall r, In r results ->
          exists ignored,
            get_prop config "ignored" = Ok ignored
            /\ includes ignored (VStr (name r)) = Ok false
            /\ (forall xs, ignored = VArr xs -> ~ In (VStr (name r)) xs)).
Proof.
  intros Hscan.
  destruct (scan_sequence _ _ _ Hscan) as [es [c [Hes [Hc Hseq]]]].
  exists es, c. split; [exact Hes|]. split; [exact Hc|]. split.
  - unfold keys. rewrite <- map_fst_filter, <- Hseq, map_map. reflexivity.
  - intros r Hin.
    destruct (scan_verdict_produced _ _ _ _ Hscan Hin)
      as [es' [c' [vu [n [v [[_ Hc' _] [_ Hp]]]]]]].
    rewrite Hc in Hc'. injection Hc' as <-.
    destruct Hp as [Hn _ [ign [Hign Hinc]] _ _ _ _]. subst n.
    exists ign. split; [exact Hign|]. split; [exact Hinc|].
    intros xs -> Hmem. simpl in Hinc. injection Hinc as Hinc.
    apply array_includes_str in Hmem. congruence.
Qed.

Lemma ignored_never_reported_witness :
  exists es config,
    declared Samples.w_ignoring = Ok es
    /\ loadConfig Samples.w_ignoring = Ok config
    /\ map name Samples.results_ignoring = filter (kept config) (keys es)
    /\ (forall r, In r Samples.results_ignoring ->
          exists ignored,
            get_prop config "ignored" = Ok ignored
            /\ includes ignored (VStr (name r)) = Ok false
            /\ (forall xs, ignored = VArr xs -> ~ In (VStr (name r)) xs)).
Proof.
  apply (ignored_never_reported Samples.w_ignoring
           (reported Samples.w_ignoring Samples.results_ignoring)).
  vm_compute. reflexivity.
Defined.

(** The rule of line 65 as the code has it.  In a completed scan, when the
    vulnerability mapping is an object: a verdict whose name has an entry
    (an object) carries the entry's [severity]; a verdict whose name has no
    entry carries [null], unless the name is a member of
    [Object.prototype]: the read then finds the inherited member and the
    verdict carries [undefined]. *)
Lemma hasVulnerability_rule (w w' : world) (results : list verdict)
  (r : verdict) :
  scanDependencies w = Ok (results, w') -> In r results ->
  exists vulnerabilities,
    runNpmAudit w = Ok vulnerabilities
    /\ (forall m, vulnerabilities = VObj m ->
          (forall entry, lookup (name r) m = Some (VObj entry) ->
             hasVulnerability r = or_undefined (lookup "severity" entry))
          /\ (lookup (name r) m = None ->
              hasVulnerability r
              = if member (name r) Object_prototype then VUndefined
                else VNull)).
Proof.
  intros Hscan Hin.
  destruct (scan_verdict_produced _ _ _ _ Hscan Hin)
    as [d [c [vu [n [v [Hinputs [_ Hp]]]]]]].
  destruct Hp as [Hn _ _ _ _ [found [Hfound Hsev]] _]. subst n.
  exists vu. split; [apply Hinputs|].
  intros m ->. cbn [get_prop] in Hfound. injection Hfound as <-. split.
  - intros entry He. rewrite He in Hsev. cbn [truthy get_prop] in Hsev.
    injection Hsev as <-. destruct (lookup "severity" entry); reflexivity.
  - intros He. rewrite He in Hsev. unfold inherited in Hsev.
    cbn [member existsb orb] in Hsev.
    destruct (member (name r) Object_prototype); cbn [truthy] in Hsev;
      [change (get_prop (VObj []) "severity") with (@Ok value VUndefined)
         in Hsev|];
      injection Hsev as <-; reflexivity.
Qed.

Lemma hasVulnerability_rule_at_badlib :
  exists vulnerabilities,
    runNpmAudit Samples.w_badlib = Ok vulnerabilities
    /\ (forall m, vulnerabilities = VObj m ->
          (forall entry, lookup "badlib" m = Some (VObj entry) ->
             VStr "high" = or_undefined (lookup "severity" entry))
          /\ (lookup "badlib" m = None ->
              VStr "high"
              = if member "badlib" Object_prototype then VUndefined
                else VNull)).
Proof.
  apply (hasVulnerability_rule Samples.w_badlib
           (reported Samples.w_badlib [Samples.r_badlib])
           [Samples.r_badlib] Samples.r_badlib).
  - vm_compute. reflexivity.
  - simpl. left. reflexivity.
Defined.

(** C7, at the failing input.  The manifest declares a package named
    [constructor] and the audit has no entry of that name; line 65 finds
    the [constructor] every object inherits, which is truthy and has no
    [severity], so the verdict carries [undefined] where the rule says
    [null], and the report is written without the field. *)
Theorem hasVulnerability_inherited_name :
  exists m fs,
    runNpmAudit Samples.w_constructor = Ok (VObj m)
    /\ lookup "constructor" m = None
    /\ scanDependencies Samples.w_constructor
       = Ok ([Samples.r_constructor],
             reported Samples.w_constructor [Samples.r_constructor])
    /\ hasVulnerability Samples.r_constructor = VUndefined
    /\ hasVulnerability Samples.r_constructor <> VNull
    /\ written Samples.r_constructor = VObj fs
    /\ ~ In "hasVulnerability" (keys fs).
Proof.
  eexists. eexists.
  split; [vm_compute; reflexivity|]. split; [reflexivity|].
  split; [vm_compute; reflexivity|]. split; [reflexivity|].
  split; [discriminate|]. split; [vm_compute; reflexivity|].
  simpl. intros H. repeat destruct H as [H|H]; try discriminate H. exact H.
Qed.

(** ** Config store *)

(** C8.  Loading the config always returns: the parsed contents of the
    config file when it exists and parses, and otherwise the default, whose
    [ignored] is empty and whose [allowedLicenses] is MIT, Apache-2.0,
    BSD-2-Clause, BSD-3-Clause. *)
Theorem loadConfig_fails_soft (w : world) :
  loadConfig w = Ok (match files w CONFIG_FILE with
                     | Some (Parsed v) => v
                     | Some Unparseable | None => default_config
                     end)
  /\ get_prop default_config "ignored" = Ok (VArr [])
  /\ get_prop default_config "allowedLicenses"
     = Ok (VArr [VStr "MIT"; VStr "Apache-2.0"; VStr "BSD-2-Clause";
                 VStr "BSD-3-Clause"]).
Proof.
  split; [|split; reflexivity].
  unfold loadConfig, readJson.
  destruct (files w CONFIG_FILE) as [[|v]|]; reflexivity.
Qed.

Lemma loadConfig_total (w : world) : exists config, loadConfig w = Ok config.
Proof. unfold loadConfig. apply try_catch_total. Qed.

Lemma loadConfig_parsed (w : world) (v : value) :
  files w CONFIG_FILE = Some (Parsed v) -> loadConfig w = Ok v.
Proof. unfold loadConfig, readJson. intros ->. reflexivity. Qed.

(** ** Metadata fetch *)

Lemma fetchPackageInfo_total (w : world) (n : string) (v : value) :
  exists lat lic, fetchPackageInfo w n v = Ok (lat, lic).
Proof.
  unfold fetchPackageInfo.
  match goal with |- context [try_catch ?b _] => destruct b as [[lat lic]|e] end;
    simpl; eauto.
Qed.

Lemma fetchPackageInfo_license_truthy (w : world) (n : string)
  (v lat lic : value) :
  fetchPackageInfo w n v = Ok (lat, lic) -> truthy lic = true.
Proof.
  unfold fetchPackageInfo, try_catch.
  match goal with |- context [match ?b with _ => _ end] =>
    destruct b as [[lat' lic']|e] eqn:E end.
  - intros H. injection H as <- <-.
    do 6 bind_inv E. injection E as <- <-.
    now apply or_else_truthy.
  - intros H. injection H as <- <-. reflexivity.
Qed.




(** ** The report *)

Lemma defined_json_image (v : value) : defined (json_image v) = defined v.
Proof. destruct v; reflexivity. Qed.

Lemma json_image_verdict_object (r : verdict) :
  json_image (verdict_object r)
  = VObj (drop_undefined
            [("name", VStr (name r));
             ("version", json_image (version r));
             ("latest", json_image (latest r));
             ("isOutdated", VBool (isOutdated r));
             ("hasVulnerability", json_image (hasVulnerability r));
             ("license", json_image (license r));
             ("isLicenseAllowed", VBool (isLicenseAllowed r))]).
Proof. reflexivity. Qed.

Lemma written_keys (r : verdict) :
  exists fs,
    json_image (verdict_object r) = VObj fs
    /\ keys fs
       = filter (fun k => defined (or_undefined (lookup k (verdict_props r))))
           report_fields.
Proof.
  rewrite json_image_verdict_object. eexists. split; [reflexivity|].
  unfold drop_undefined, report_fields, verdict_props. simpl.
  rewrite !defined_json_image.
  destruct (defined (version r)), (defined (latest r)),
    (defined (hasVulnerability r)), (defined (license r)); reflexivity.
Qed.

Lemma json_image_results (results : list verdict) :
  json_image (VArr (map verdict_object results))
  = VArr (map (fun r => json_image (verdict_object r)) results).
Proof.
  simpl. f_equal. rewrite map_map. reflexivity.
Qed.

(** C6, as the code has it.  Every verdict object of a scan has exactly the
    fields name, version, latest, isOutdated, hasVulnerability, license,
    isLicenseAllowed, and the report file holds these objects in order, as
    serialisation leaves them: each with those of the seven fields whose
    value is not [undefined]. *)
Theorem report_field_names (w w' : world) (results : list verdict) :
  scanDependencies w = Ok (results, w') ->
  exists docs,
    files w' REPORT_FILE = Some (Parsed (VArr docs))
    /\ Forall2
         (fun r doc =>
            keys (verdict_props r) = report_fields
            /\ exists fs,
                 doc = VObj fs
                 /\ keys fs
                    = filter (fun k => defined (or_undefined
                                         (lookup k (verdict_props r))))
                        report_fields)
         results docs.
Proof.
  intros H. apply scanDependencies_inv in H. destruct H as [_ ->].
  exists (map (fun r => json_image (verdict_object r)) results). split.
  - unfold reported, writeJson. cbn [files]. rewrite String.eqb_refl.
    now rewrite json_image_results.
  - clear. induction results as [|r rs IH]; simpl; constructor; [|exact IH].
    split; [reflexivity|]. apply written_keys.
Qed.

Lemma report_field_names_witness :
  exists docs,
    files (reported Samples.w_lodash [Samples.r_lodash]) REPORT_FILE
    = Some (Parsed (VArr docs))
    /\ Forall2
         (fun r doc =>
            keys (verdict_props r) = report_fields
            /\ exists fs,
                 doc = VObj fs
                 /\ keys fs
                    = filter (fun k => defined (or_undefined
                                         (lookup k (verdict_props r))))
                        report_fields)
         [Samples.r_lodash] docs.
Proof.
  apply (report_field_names Samples.w_lodash).
  vm_compute. reflexivity.
Defined.

(** C6 as stated fails: the verdict written for lodash has a field
    [version] and no field [declaredVersion]. *)
Lemma report_field_names_counterexample :
  exists fs,
    scanDependencies Samples.w_lodash
    = Ok ([Samples.r_lodash], reported Samples.w_lodash [Samples.r_lodash])
    /\ files (reported Samples.w_lodash [Samples.r_lodash]) REPORT_FILE
       = Some (Parsed (VArr [VObj fs]))
    /\ keys fs = report_fields
    /\ ~ In "declaredVersion" (keys fs)
    /\ ~ (forall k, In k (keys fs) <-> In k DependencyVerdict_fields).
Proof.
  eexists. split; [vm_compute; reflexivity|].
  split; [vm_compute; reflexivity|].
  split; [reflexivity|].
  assert (Hno : ~ In "declaredVersion" report_fields).
  { simpl. intros H. repeat destruct H as [H|H]; try discriminate H.
    exact H. }
  split; [exact Hno|].
  intros Hall. apply Hno. apply Hall. simpl. auto.
Qed.

(** ** Failures of the scan *)

Lemma get_prop_error (v : value) (k : string) (e : error) :
  get_prop v k = Throw e -> e = TypeError.
Proof. destruct v; simpl; intros H; congruence. Qed.

Lemma includes_error (recv x : value) (e : error) :
  includes recv x = Throw e -> e = TypeError.
Proof. destruct recv; simpl; intros H; congruence. Qed.

Lemma get_prop_not_nullish (v : value) (k : string) :
  nullish v = false -> exists x, get_prop v k = Ok x.
Proof. destruct v; simpl; try discriminate; eauto. Qed.

Lemma runNpmAudit_truthy (w : world) :
  exists v, runNpmAudit w = Ok v /\ truthy v = true.
Proof.
  unfold runNpmAudit, try_catch.
  match goal with |- context [match ?b with _ => _ end] =>
    destruct b as [v|e] eqn:E end.
  - exists v. split; [reflexivity|].
    do 3 bind_inv E. injection E as <-. now apply or_else_truthy.
  - exists (VObj []). auto.
Qed.

Lemma manifest_read (w : world) :
  exists pkg,
    read_manifest w = Ok pkg
    /\ (pkg = VObj [] \/ files w PACKAGE_FILE = Some (Parsed pkg)).
Proof.
  unfold read_manifest, readJson. destruct (files w PACKAGE_FILE) as [[|v]|] eqn:E; simpl.
  - exists (VObj []). auto.
  - exists v. auto.
  - exists (VObj []). auto.
Qed.

Lemma declared_total (w : world) :
  (forall v, files w PACKAGE_FILE = Some (Parsed v) -> nullish v = false) ->
  exists es, declared w = Ok es.
Proof.
  intros Hpkg. unfold declared, merged_dependencies.
  destruct (manifest_read w) as [pkg [-> Hsrc]]. simpl.
  assert (Hn : nullish pkg = false).
  { destruct Hsrc as [->|Hsrc]; [reflexivity | now apply Hpkg]. }
  destruct (get_prop_not_nullish pkg "dependencies" Hn) as [a ->].
  destruct (get_prop_not_nullish pkg "devDependencies" Hn) as [b ->].
  simpl. eauto.
Qed.

Section Failures.

Variable w : world.
Variables config vulnerabilities : value.

Let body := scan_entry w config vulnerabilities.
Let loop := scan_loop w config vulnerabilities.

Lemma scan_entry_error (e : string * value) (err : error) :
  body e = Throw err -> err = TypeError.
Proof.
  unfold body, scan_entry. destruct e as [n v].
  destruct (get_prop config "ignored") as [ign|e1] eqn:E1; simpl;
    [|intros H; injection H as <-; eapply get_prop_error; eauto].
  destruct (includes ign (VStr n)) as [[|]|e2] eqn:E2; simpl;
    [discriminate| |intros H; injection H as <-;
                     eapply includes_error; eauto].
  destruct (fetchPackageInfo_total w n v) as [lat [lic ->]]. simpl.
  destruct (get_prop vulnerabilities n) as [found|e3] eqn:E3; simpl;
    [|intros H; injection H as <-; eapply get_prop_error; eauto].
  match goal with |- context [bind ?c _] =>
    destruct c as [sev|e4] eqn:E4 end; simpl.
  2:{ intros H; injection H as <-.
      destruct (truthy found); [eapply get_prop_error; eauto|discriminate]. }
  destruct (get_prop config "allowedLicenses") as [al|e5] eqn:E5; simpl;
    [|intros H; injection H as <-; eapply get_prop_error; eauto].
  destruct (includes al lic) as [allowed|e6] eqn:E6; simpl;
    [discriminate|intros H; injection H as <-; eapply includes_error; eauto].
Qed.

Lemma scan_loop_throws (es : props) (acc : list verdict)
  (e : string * value) (err : error) :
  In e es -> body e = Throw err -> loop es acc = Throw TypeError.
Proof.
  unfold loop. intros Hin Hthrow. revert acc.
  induction es as [|e0 es IH]; intros acc; [contradiction|].
  simpl. fold body. destruct (body e0) as [o|err0] eqn:E0; simpl.
  - destruct Hin as [->|Hin]; [congruence|].
    destruct o; apply IH; exact Hin.
  - apply scan_entry_error in E0. now subst.
Qed.

Lemma scan_loop_total (es : props) (acc : list verdict) :
  (forall e, exists o, body e = Ok o) ->
  exists out, loop es acc = Ok out.
Proof.
  unfold loop. intros Hbody. revert acc.
  induction es as [|e es IH]; intros acc; simpl; [eauto|].
  fold body. destruct (Hbody e) as [o ->]. simpl.
  destruct o; apply IH.
Qed.

Lemma scan_entry_total (xs ys : list value) (e : string * value) :
  get_prop config "ignored" = Ok (VArr xs) ->
  get_prop config "allowedLicenses" = Ok (VArr ys) ->
  truthy vulnerabilities = true ->
  exists o, body e = Ok o.
Proof.
  intros Hign Hal Hvu. unfold body, scan_entry. destruct e as [n v].
  rewrite Hign. simpl.
  destruct (array_includes xs (VStr n)); [eauto|].
  destruct (fetchPackageInfo_total w n v) as [lat [lic ->]]. simpl.
  destruct (truthy_get_prop vulnerabilities n Hvu) as [found ->]. simpl.
  destruct (truthy found) eqn:Ef.
  - destruct (truthy_get_prop found "severity" Ef) as [sev ->]. simpl.
    rewrite Hal. simpl. eauto.
  - simpl. rewrite Hal. simpl. eauto.
Qed.

Lemma scan_entry_needs_ignored (fs : props) (e : string * value) :
  config = VObj fs -> lookup "ignored" fs = None ->
  body e = Throw TypeError.
Proof.
  intros -> Hno. unfold body, scan_entry. destruct e as [n v].
  simpl. rewrite Hno. reflexivity.
Qed.

Lemma scan_entry_needs_allowedLicenses (fs : props) (xs : list value)
  (n : string) (v : value) :
  config = VObj fs -> lookup "ignored" fs = Some (VArr xs) ->
  lookup "allowedLicenses" fs = None -> ~ In (VStr n) xs ->
  exists err, body (n, v) = Throw err.
Proof.
  intros Hc Hign Hal Hout.
  destruct (body (n, v)) as [[r|]|err] eqn:E; [| |eauto].
  - apply scan_entry_Some in E.
    destruct E as [_ _ _ _ _ _ [al [allowed [Hget [Hinc _]]]]].
    subst config. simpl in Hget. rewrite Hal in Hget.
    injection Hget as <-. discriminate Hinc.
  - apply scan_entry_None in E. destruct E as [ign [Hget Hinc]].
    subst config. simpl in Hget. rewrite Hign in Hget.
    injection Hget as <-. simpl in Hinc. injection Hinc as Hinc.
    apply array_includes_str in Hinc. contradiction.
Qed.

End Failures.

(** C9, as the code has it.  Whatever the declarations are, well formed or
    not, the scan completes as soon as the manifest is not [null] and the
    loaded config has arrays for [ignored] and [allowedLicenses]: a failed
    fetch gives "Unknown", and no input is rejected as invalid. *)
Theorem scan_never_rejects (w : world) (config : value) (xs ys : list value) :
  (forall v, files w PACKAGE_FILE = Some (Parsed v) -> nullish v = false) ->
  loadConfig w = Ok config ->
  get_prop config "ignored" = Ok (VArr xs) ->
  get_prop config "allowedLicenses" = Ok (VArr ys) ->
  exists results, scanDependencies w = Ok (results, reported w results).
Proof.
  intros Hpkg Hcfg Hign Hal.
  destruct (declared_total w Hpkg) as [es Hes].
  destruct (runNpmAudit_truthy w) as [vu [Hvu Htruthy]].
  destruct (scan_loop_total w config vu es []) as [out Hout].
  { intros e. eapply scan_entry_total; eauto. }
  exists out. apply scanDependencies_results.
  rewrite (scan_results_inputs w es config vu); [exact Hout|].
  constructor; assumption.
Qed.

Lemma scan_never_rejects_witness :
  exists results,
    scanDependencies Samples.w_malformed
    = Ok (results, reported Samples.w_malformed results).
Proof.
  apply (scan_never_rejects Samples.w_malformed default_config []
           [VStr "MIT"; VStr "Apache-2.0"; VStr "BSD-2-Clause";
            VStr "BSD-3-Clause"]).
  - intros v H. vm_compute in H. injection H as <-. reflexivity.
  - reflexivity.
  - reflexivity.
  - reflexivity.
Defined.

(** C9 as stated fails: a manifest that gives lodash the number 4 for a
    version is not a set of name/version pairs, and the scan completes with
    a verdict for it instead of failing. *)
Lemma scan_never_rejects_counterexample :
  exists pkg,
    readJson Samples.w_malformed PACKAGE_FILE = Ok pkg
    /\ well_formed_manifest pkg = false
    /\ scanDependencies Samples.w_malformed
       = Ok ([Samples.r_malformed],
             reported Samples.w_malformed [Samples.r_malformed])
    /\ ~ (exists e, scanDependencies Samples.w_malformed = Throw e).
Proof.
  eexists. split; [reflexivity|]. split; [reflexivity|].
  assert (H : scanDependencies Samples.w_malformed
              = Ok ([Samples.r_malformed],
                    reported Samples.w_malformed [Samples.r_malformed])).
  { vm_compute. reflexivity. }
  split; [exact H|]. intros [e He]. rewrite H in He. discriminate He.
Qed.

(** ** Objects as property lists *)

Section Props.

Implicit Types (fs es t : props) (k : string) (v : value).

Lemma has_key_In k fs : has_key k fs = true <-> In k (keys fs).
Proof.
  unfold has_key. rewrite existsb_exists. split.
  - intros [k' [Hin Heq]]. apply String.eqb_eq in Heq. now subst.
  - intros Hin. exists k. split; [exact Hin | apply String.eqb_refl].
Qed.

Lemma has_key_false k fs : has_key k fs = false <-> ~ In k (keys fs).
Proof.
  rewrite <- has_key_In. destruct (has_key k fs); split; congruence.
Qed.

Lemma lookup_None k fs : lookup k fs = None <-> ~ In k (keys fs).
Proof.
  induction fs as [|[k0 v0] fs IH]; simpl.
  - tauto.
  - destruct (String.eqb k0 k) eqn:E.
    + apply String.eqb_eq in E. split; [discriminate | tauto].
    + apply String.eqb_neq in E. rewrite IH. tauto.
Qed.

Lemma lookup_In k v fs : lookup k fs = Some v -> In (k, v) fs.
Proof.
  induction fs as [|[k0 v0] fs IH]; simpl; [discriminate|].
  destruct (String.eqb k0 k) eqn:E.
  - apply String.eqb_eq in E. intros H. injection H as <-. subst. auto.
  - auto.
Qed.

Lemma In_lookup k v fs : NoDup (keys fs) -> In (k, v) fs -> lookup k fs = Some v.
Proof.
  induction fs as [|[k0 v0] fs IH]; simpl; [contradiction|].
  intros Hnd Hin. inversion Hnd as [|? ? Hfresh Hnd']; subst.
  destruct Hin as [Heq|Hin].
  - injection Heq as -> ->. now rewrite String.eqb_refl.
  - destruct (String.eqb k0 k) eqn:E.
    + apply String.eqb_eq in E. subst k0. exfalso. apply Hfresh.
      change (In (fst (k, v)) (map fst fs)). now apply in_map.
    + now apply IH.
Qed.

Lemma lookup_set_prop k k' v fs :
  lookup k (set_prop fs k' v)
  = if String.eqb k' k then Some v else lookup k fs.
Proof.
  induction fs as [|[k0 v0] fs IH]; simpl.
  - destruct (String.eqb k' k); reflexivity.
  - destruct (String.eqb k0 k') eqn:E; simpl.
    + apply String.eqb_eq in E. subst k0.
      destruct (String.eqb k' k); reflexivity.
    + rewrite IH. destruct (String.eqb k0 k) eqn:E0; [|reflexivity].
      apply String.eqb_eq in E0. subst k0. now rewrite String.eqb_sym, E.
Qed.

Lemma keys_set_prop k v fs :
  keys (set_prop fs k v)
  = if has_key k fs then keys fs else (keys fs ++ [k])%list.
Proof.
  unfold has_key, keys.
  induction fs as [|[k0 v0] fs IH]; simpl; [reflexivity|].
  rewrite (String.eqb_sym k k0).
  destruct (String.eqb k0 k) eqn:E; simpl; [reflexivity|].
  rewrite IH. destruct (existsb (String.eqb k) (map fst fs)); reflexivity.
Qed.

Lemma has_key_keys k fs es : keys fs = keys es -> has_key k fs = has_key k es.
Proof. unfold has_key. now intros ->. Qed.

Lemma NoDup_keys_set_prop k v fs :
  NoDup (keys fs) -> NoDup (keys (set_prop fs k v)).
Proof.
  intros Hnd. rewrite keys_set_prop. destruct (has_key k fs) eqn:E.
  - exact Hnd.
  - apply has_key_false in E. apply NoDup_app; auto.
    + repeat constructor. simpl. tauto.
    + intros x Hx [<-|[]]. contradiction.
Qed.

Lemma NoDup_keys_fold es t :
  NoDup (keys t) -> NoDup (keys (fold_left assign es t)).
Proof.
  revert t. induction es as [|e es IH]; simpl; intros t Hnd; [exact Hnd|].
  apply IH. now apply NoDup_keys_set_prop.
Qed.

Lemma lookup_fold k es t :
  NoDup (keys es) ->
  lookup k (fold_left assign es t)
  = match lookup k es with
    | Some v => Some v
    | None => lookup k t
    end.
Proof.
  revert t. induction es as [|[k0 v0] es IH]; simpl; intros t Hnd;
    [reflexivity|].
  inversion Hnd as [|? ? Hfresh Hnd']; subst.
  rewrite IH by exact Hnd'.
  change (assign t (k0, v0)) with (set_prop t k0 v0).
  rewrite lookup_set_prop.
  destruct (String.eqb k0 k) eqn:E; [|reflexivity].
  apply String.eqb_eq in E. subst k0.
  apply lookup_None in Hfresh. now rewrite Hfresh.
Qed.

Lemma keys_fold es t :
  NoDup (keys es) ->
  keys (fold_left assign es t)
  = (keys t ++ filter (fun k => negb (has_key k t)) (keys es))%list.
Proof.
  revert t. induction es as [|[k0 v0] es IH]; simpl; intros t Hnd.
  - now rewrite app_nil_r.
  - inversion Hnd as [|? ? Hfresh Hnd']; subst.
    rewrite IH by exact Hnd'.
    change (assign t (k0, v0)) with (set_prop t k0 v0).
    rewrite keys_set_prop. destruct (has_key k0 t) eqn:E; simpl.
    + f_equal. apply filter_ext. intros k.
      f_equal. apply has_key_keys. now rewrite keys_set_prop, E.
    + rewrite <- app_assoc. simpl. f_equal. f_equal.
      apply filter_ext_in. intros k Hk. f_equal.
      unfold has_key. rewrite keys_set_prop, E, existsb_app. simpl.
      destruct (String.eqb k k0) eqn:Ek; [|now rewrite !orb_false_r].
      apply String.eqb_eq in Ek. subst k. contradiction.
Qed.

(** Enumeration order *)

Lemma insert_index_In (x e : N * (string * value)) l :
  In x (insert_index e l) <-> x = e \/ In x l.
Proof.
  induction l as [|e' l IH]; simpl.
  - intuition congruence.
  - destruct (N.ltb (fst e) (fst e')); simpl; [intuition congruence|].
    rewrite IH. intuition congruence.
Qed.

Lemma index_sort_In (x : N * (string * value)) l :
  In x (index_sort l) <-> In x l.
Proof.
  unfold index_sort. induction l as [|e l IH]; simpl; [tauto|].
  rewrite insert_index_In, IH. intuition congruence.
Qed.

Lemma index_part_In (x : N * (string * value)) fs :
  In x (index_part fs)
  <-> In (snd x) fs /\ array_index (fst (snd x)) = Some (fst x).
Proof.
  unfold index_part. rewrite in_flat_map. split.
  - intros [e [Hin Hx]]. destruct (array_index (fst e)) as [n|] eqn:E;
      [|contradiction].
    destruct Hx as [<-|[]]. simpl. auto.
  - intros [Hin Hidx]. exists (snd x). split; [exact Hin|].
    rewrite Hidx. left. now destruct x.
Qed.

Lemma ordered_entries_In (e : string * value) fs :
  In e (ordered_entries fs) <-> In e fs.
Proof.
  unfold ordered_entries. rewrite in_app_iff, in_map_iff, filter_In. split.
  - intros [[x [<- Hx]]|[Hin _]]; [|exact Hin].
    apply index_sort_In, index_part_In in Hx. tauto.
  - intros Hin. unfold is_index.
    destruct (array_index (fst e)) as [n|] eqn:E.
    + left. exists (n, e). split; [reflexivity|].
      apply index_sort_In, index_part_In. auto.
    + right. auto.
Qed.

Lemma insert_index_perm (e : N * (string * value)) l :
  Permutation (insert_index e l) (e :: l).
Proof.
  induction l as [|e' l IH]; simpl; [reflexivity|].
  destruct (N.ltb (fst e) (fst e')); [reflexivity|].
  rewrite IH. apply perm_swap.
Qed.

Lemma index_sort_perm (l : list (N * (string * value))) :
  Permutation (index_sort l) l.
Proof.
  unfold index_sort. induction l as [|e l IH]; simpl; [reflexivity|].
  rewrite insert_index_perm. now constructor.
Qed.

Lemma index_part_split fs :
  Permutation
    (map snd (index_part fs) ++ filter (fun e => negb (is_index (fst e))) fs)
    fs.
Proof.
  unfold index_part, is_index.
  induction fs as [|e fs IH]; simpl; [reflexivity|].
  destruct (array_index (fst e)) as [n|]; simpl.
  - now constructor.
  - rewrite <- Permutation_middle. now constructor.
Qed.

Lemma ordered_entries_perm fs : Permutation (ordered_entries fs) fs.
Proof.
  unfold ordered_entries.
  rewrite (Permutation_map snd (index_sort_perm (index_part fs))).
  apply index_part_split.
Qed.

(** An object keeps distinct keys under enumeration. *)
Lemma ordered_entries_NoDup fs :
  NoDup (keys fs) -> NoDup (keys (ordered_entries fs)).
Proof.
  intros H. eapply Permutation_NoDup; [|exact H].
  unfold keys. apply Permutation_map. symmetry. apply ordered_entries_perm.
Qed.

Lemma filter_filter {A : Type} (f g : A -> bool) (l : list A) :
  filter f (filter g l) = filter (fun x => f x && g x) l.
Proof.
  induction l as [|x l IH]; simpl; [reflexivity|].
  destruct (g x); simpl.
  - rewrite andb_true_r. destruct (f x); now rewrite IH.
  - now rewrite andb_false_r.
Qed.

Lemma filter_none {A : Type} (f : A -> bool) (l : list A) :
  (forall x, In x l -> f x = false) -> filter f l = [].
Proof.
  induction l as [|x l IH]; simpl; intros H; [reflexivity|].
  rewrite (H x) by auto. apply IH. auto.
Qed.

Lemma filter_all {A : Type} (f : A -> bool) (l : list A) :
  (forall x, f x = true) -> filter f l = l.
Proof.
  intros H. induction l as [|x l IH]; simpl; [reflexivity|].
  now rewrite H, IH.
Qed.

Lemma named_keys_ordered fs :
  filter (fun k => negb (is_index k)) (keys (ordered_entries fs))
  = filter (fun k => negb (is_index k)) (keys fs).
Proof.
  unfold ordered_entries, keys. rewrite map_app, filter_app.
  rewrite filter_none.
  - simpl. induction fs as [|[k v] fs IH]; simpl; [reflexivity|].
    destruct (negb (is_index k)) eqn:E; simpl; rewrite ?E, IH; reflexivity.
  - intros k Hk. apply in_map_iff in Hk. destruct Hk as [e [<- He]].
    apply in_map_iff in He. destruct He as [x [<- Hx]].
    apply index_sort_In, index_part_In in Hx. destruct Hx as [_ Hx].
    unfold is_index. now rewrite Hx.
Qed.

End Props.

(** ** Shape of the config *)

Lemma push_field_missing (fs : props) (field x : string) :
  lookup field fs = None -> push_field (VObj fs) field x = Throw TypeError.
Proof.
  intros H. unfold push_field. cbn [get_prop bind]. rewrite H.
  unfold inherited. destruct (_ || _); reflexivity.
Qed.

Lemma push_field_other (fs : props) (field other x : string) (config' : value) :
  push_field (VObj fs) field x = Ok config' ->
  String.eqb field other = false ->
  exists fs', config' = VObj fs' /\ lookup other fs' = lookup other fs.
Proof.
  unfold push_field. intros H Hne. do 2 bind_inv H. injection H as <-.
  eexists. split; [reflexivity|]. now rewrite lookup_set_prop, Hne.
Qed.

Lemma push_field_error (config : value) (field x : string) (e : error) :
  push_field config field x = Throw e -> e = TypeError.
Proof.
  unfold push_field.
  destruct (get_prop config field) as [target|e1] eqn:E1; simpl;
    [|intros H; injection H as <-; eapply get_prop_error; eauto].
  destruct target; simpl; try congruence.
  destruct config; discriminate.
Qed.

(** C10.  Loading returns any config file that parses as it is, and the
    default only for a file that is absent or does not parse.  With a
    config object that lacks [ignored], a scan with at least one declaration
    fails, and so does a config update that adds an ignored package; with
    one that lacks [allowedLicenses], a scan with a declaration that is not
    ignored fails, and so does a config update that adds a license. *)
Theorem config_shape_unchecked :
  (forall w v, files w CONFIG_FILE = Some (Parsed v) -> loadConfig w = Ok v)
  /\ (forall w v, loadConfig w = Ok v ->
        files w CONFIG_FILE = Some (Parsed v)
        \/ (v = default_config
            /\ (files w CONFIG_FILE = None
                \/ files w CONFIG_FILE = Some Unparseable)))
  /\ (forall w fs e es,
        files w CONFIG_FILE = Some (Parsed (VObj fs)) ->
        lookup "ignored" fs = None ->
        declared w = Ok (e :: es) ->
        scanDependencies w = Throw TypeError)
  /\ (forall w fs xs n v es,
        files w CONFIG_FILE = Some (Parsed (VObj fs)) ->
        lookup "ignored" fs = Some (VArr xs) ->
        lookup "allowedLicenses" fs = None ->
        declared w = Ok es -> In (n, v) es -> ~ In (VStr n) xs ->
        scanDependencies w = Throw TypeError)
  /\ (forall w fs opts x,
        files w CONFIG_FILE = Some (Parsed (VObj fs)) ->
        lookup "ignored" fs = None ->
        given (ignore opts) = Some x ->
        updateConfig w opts = Throw TypeError)
  /\ (forall w fs opts x,
        files w CONFIG_FILE = Some (Parsed (VObj fs)) ->
        lookup "allowedLicenses" fs = None ->
        given (addLicense opts) = Some x ->
        updateConfig w opts = Throw TypeError).
Proof.
  split; [exact loadConfig_parsed|]. split.
  { intros w v. unfold loadConfig, readJson.
    destruct (files w CONFIG_FILE) as [[|v']|]; simpl; intros H;
      injection H as <-; auto. }
  split.
  { intros w fs e es Hfile Hno Hes.
    destruct (runNpmAudit_truthy w) as [vu [Hvu _]].
    apply scanDependencies_throws.
    rewrite (scan_results_inputs w (e :: es) (VObj fs) vu).
    - apply (scan_loop_throws w (VObj fs) vu (e :: es) [] e TypeError).
      + now left.
      + now apply (scan_entry_needs_ignored w (VObj fs) vu fs).
    - constructor; auto using loadConfig_parsed. }
  split.
  { intros w fs xs n v es Hfile Hign Hal Hes Hin Hout.
    destruct (runNpmAudit_truthy w) as [vu [Hvu _]].
    apply scanDependencies_throws.
    rewrite (scan_results_inputs w es (VObj fs) vu).
    - destruct (scan_entry_needs_allowedLicenses w (VObj fs) vu fs xs n v
                  eq_refl Hign Hal Hout) as [err Herr].
      eapply scan_loop_throws; eauto.
    - constructor; auto using loadConfig_parsed. }
  split.
  { intros w fs opts x Hfile Hno Hgiven. unfold updateConfig.
    rewrite (loadConfig_parsed w _ Hfile). cbn [bind]. rewrite Hgiven.
    now rewrite push_field_missing. }
  { intros w fs opts x Hfile Hno Hgiven. unfold updateConfig.
    rewrite (loadConfig_parsed w _ Hfile). cbn [bind]. rewrite Hgiven.
    destruct (given (ignore opts)) as [y|].
    - destruct (push_field (VObj fs) "ignored" y) as [config1|e] eqn:E.
      + destruct (push_field_other fs "ignored" "allowedLicenses" y config1 E
                    eq_refl) as [fs' [-> Hsame]].
        cbn [bind]. rewrite push_field_missing; [reflexivity|congruence].
      + apply push_field_error in E. now subst.
    - cbn [bind]. now rewrite push_field_missing. }
Qed.

Lemma config_shape_unchecked_witness :
  loadConfig Samples.w_bare_config = Ok (VObj [])
  /\ scanDependencies Samples.w_bare_config = Throw TypeError
  /\ updateConfig Samples.w_bare_config
       {| ignore := Some "left-pad"; addLicense := None |} = Throw TypeError
  /\ updateConfig Samples.w_bare_config
       {| ignore := None; addLicense := Some "ISC" |} = Throw TypeError.
Proof.
  destruct config_shape_unchecked as [H1 [_ [H3 [_ [H5 H6]]]]].
  split; [|split; [|split]].
  - apply H1. reflexivity.
  - apply (H3 Samples.w_bare_config [] ("lodash", VStr "4.17.0") []);
      reflexivity.
  - apply (H5 Samples.w_bare_config [] _ "left-pad"); reflexivity.
  - apply (H6 Samples.w_bare_config [] _ "ISC"); reflexivity.
Defined.

(** ** Declaration order *)

Lemma merged_lookup (deps devDeps : value) (n : string) :
  NoDup (keys (entries deps)) -> NoDup (keys (entries devDeps)) ->
  lookup n (spread (spread [] deps) devDeps)
  = match lookup n (entries devDeps) with
    | Some v => Some v
    | None => lookup n (entries deps)
    end.
Proof.
  intros Ha Hb. unfold spread. rewrite lookup_fold by exact Hb.
  destruct (lookup n (entries devDeps)); [reflexivity|].
  rewrite lookup_fold by exact Ha.
  destruct (lookup n (entries deps)); reflexivity.
Qed.

Lemma merged_keys (deps devDeps : value) :
  NoDup (keys (entries deps)) -> NoDup (keys (entries devDeps)) ->
  keys (spread (spread [] deps) devDeps)
  = (keys (entries deps)
     ++ filter (fun k => negb (has_key k (entries deps)))
          (keys (entries devDeps)))%list.
Proof.
  intros Ha Hb. unfold spread.
  assert (H1 : keys (fold_left assign (entries deps) []) = keys (entries deps)).
  { rewrite keys_fold by exact Ha. simpl. now apply filter_all. }
  rewrite keys_fold by exact Hb. rewrite H1. f_equal.
  apply filter_ext. intros k. f_equal. now apply has_key_keys.
Qed.

Lemma merged_NoDup (deps devDeps : value) :
  NoDup (keys (spread (spread [] deps) devDeps)).
Proof.
  unfold spread. apply NoDup_keys_fold, NoDup_keys_fold. constructor.
Qed.

(** Enumeration lists the array-index keys in ascending order. *)
Lemma insert_index_sorted (e : N * (string * value))
  (l : list (N * (string * value))) :
  Sorted (fun a b => (fst a <= fst b)%N) l ->
  Sorted (fun a b => (fst a <= fst b)%N) (insert_index e l).
Proof.
  induction l as [|a l IH]; intros Hs; simpl.
  - repeat constructor.
  - destruct (N.ltb_spec (fst e) (fst a)) as [Hlt|Hge].
    + constructor; [exact Hs|]. constructor. apply N.lt_le_incl, Hlt.
    + inversion Hs as [|? ? Hs' Hhd]; subst.
      constructor; [now apply IH|].
      destruct l as [|b l]; simpl.
      * now constructor.
      * inversion Hhd; subst.
        destruct (N.ltb (fst e) (fst b)); now constructor.
Qed.

Lemma index_sort_sorted (l : list (N * (string * value))) :
  Sorted (fun a b => (fst a <= fst b)%N) (index_sort l).
Proof.
  unfold index_sort. induction l as [|e l IH]; simpl; [constructor|].
  now apply insert_index_sorted.
Qed.

Lemma sorted_index_keys (l : list (N * (string * value))) :
  Sorted (fun a b => (fst a <= fst b)%N) l ->
  Forall (fun x => array_index (fst (snd x)) = Some (fst x)) l ->
  Sorted (fun a b => (index_value a <= index_value b)%N)
    (map (fun x => fst (snd x)) l).
Proof.
  induction 1 as [|a l Hs IH Hhd]; intros HF; simpl; [constructor|].
  inversion HF as [|? ? Ha HF']; subst.
  constructor; [now apply IH|].
  destruct l as [|b l]; simpl; [constructor|].
  inversion Hhd; subst. inversion HF' as [|? ? Hb _]; subst.
  constructor. unfold index_value. now rewrite Ha, Hb.
Qed.

Lemma ordered_keys_split (fs : props) :
  exists idx,
    keys (ordered_entries fs)
    = (idx ++ filter is_named (keys (ordered_entries fs)))%list
    /\ Forall (fun k => is_index k = true) idx
    /\ Sorted (fun a b => (index_value a <= index_value b)%N) idx.
Proof.
  exists (map (fun x => fst (snd x)) (index_sort (index_part fs))).
  assert (HF : Forall (fun x => array_index (fst (snd x)) = Some (fst x))
                 (index_sort (index_part fs))).
  { apply Forall_forall. intros x Hx.
    now apply index_sort_In, index_part_In in Hx. }
  split; [|split].
  - unfold is_named. rewrite named_keys_ordered.
    unfold ordered_entries, keys. rewrite map_app, map_map. f_equal.
    apply (map_fst_filter (fun k => negb (is_index k))).
  - apply Forall_map. eapply Forall_impl; [|exact HF].
    intros x Hx. unfold is_index. now rewrite Hx.
  - apply sorted_index_keys; [apply index_sort_sorted|exact HF].
Qed.

(** C4, as the code has it.  The loop runs over the entries of the object
    that merges the [dependencies] group and then the [devDependencies]
    group.  The verdicts of a completed scan are, in order, those entries
    that the ignore test lets through, each with its name and version.  A
    name has the version its [devDependencies] entry gives, and otherwise
    the one its [dependencies] entry gives.  The order of the merged names
    is the property order of the language: first the names that are array
    indices, in ascending numeric order, then every other name, those of
    the [dependencies] group followed by those only [devDependencies]
    has. *)
Theorem merged_declaration_order (w w' : world) (results : list verdict)
  (pkg deps devDeps config : value) :
  scanDependencies w = Ok (results, w') ->
  read_manifest w = Ok pkg ->
  get_prop pkg "dependencies" = Ok deps ->
  get_prop pkg "devDependencies" = Ok devDeps ->
  loadConfig w = Ok config ->
  NoDup (keys (entries deps)) ->
  NoDup (keys (entries devDeps)) ->
  map (fun r => (name r, version r)) results
  = filter (fun e => kept config (fst e)) (merged_entries deps devDeps)
  /\ (forall n v,
        In (n, v) (merged_entries deps devDeps) <->
        lookup n (entries devDeps) = Some v
        \/ (lookup n (entries devDeps) = None
            /\ lookup n (entries deps) = Some v))
  /\ filter is_named (keys (merged_entries deps devDeps))
     = (filter is_named (keys (entries deps))
        ++ filter (fun k => is_named k && negb (has_key k (entries deps)))
             (keys (entries devDeps)))%list
  /\ (exists idx,
        keys (merged_entries deps devDeps)
        = (idx ++ filter is_named (keys (merged_entries deps devDeps)))%list
        /\ Forall (fun k => is_index k = true) idx
        /\ Sorted (fun a b => (index_value a <= index_value b)%N) idx).
Proof.
  intros Hscan Hpkg Hdeps Hdev Hcfg Ha Hb.
  split; [|split; [|split]].
  - destruct (scan_sequence _ _ _ Hscan) as [es [c [Hes [Hc Hseq]]]].
    rewrite Hcfg in Hc. injection Hc as <-.
    unfold declared, merged_dependencies in Hes.
    rewrite Hpkg in Hes. cbn [bind] in Hes.
    rewrite Hdeps in Hes. cbn [bind] in Hes.
    rewrite Hdev in Hes. cbn [bind] in Hes.
    injection Hes as <-. exact Hseq.
  - intros n v. unfold merged_entries. simpl entries.
    rewrite ordered_entries_In.
    assert (Hiff : In (n, v) (spread (spread [] deps) devDeps)
                   <-> lookup n (spread (spread [] deps) devDeps) = Some v).
    { split; [apply In_lookup, merged_NoDup | apply lookup_In]. }
    rewrite Hiff, merged_lookup by assumption.
    destruct (lookup n (entries devDeps)) as [x|].
    + split; [auto|]. intros [H|[H _]]; [exact H|discriminate H].
    + split; [auto|]. intros [H|[_ H]]; [discriminate H|exact H].
  - unfold merged_entries, is_named. simpl entries.
    rewrite named_keys_ordered, merged_keys by assumption.
    rewrite filter_app, filter_filter. reflexivity.
  - unfold merged_entries. simpl entries. apply ordered_keys_split.
Qed.

Ltac distinct_keys :=
  repeat (constructor;
          [simpl; intros H; repeat destruct H as [H|H];
           try discriminate H; exact H|]);
  constructor.

Lemma merged_declaration_order_witness :
  map (fun r => (name r, version r)) Samples.results_index
  = filter (fun e => kept default_config (fst e))
      (merged_entries (VObj Samples.deps_index) (VObj Samples.devDeps_index))
  /\ (forall n v,
        In (n, v) (merged_entries (VObj Samples.deps_index)
                     (VObj Samples.devDeps_index)) <->
        lookup n (entries (VObj Samples.devDeps_index)) = Some v
        \/ (lookup n (entries (VObj Samples.devDeps_index)) = None
            /\ lookup n (entries (VObj Samples.deps_index)) = Some v))
  /\ filter is_named
       (keys (merged_entries (VObj Samples.deps_index)
                (VObj Samples.devDeps_index)))
     = (filter is_named (keys (entries (VObj Samples.deps_index)))
        ++ filter (fun k => is_named k
                            && negb (has_key k
                                       (entries (VObj Samples.deps_index))))
             (keys (entries (VObj Samples.devDeps_index))))%list
  /\ (exists idx,
        keys (merged_entries (VObj Samples.deps_index)
                (VObj Samples.devDeps_index))
        = (idx ++ filter is_named
                    (keys (merged_entries (VObj Samples.deps_index)
                             (VObj Samples.devDeps_index))))%list
        /\ Forall (fun k => is_index k = true) idx
        /\ Sorted (fun a b => (index_value a <= index_value b)%N) idx).
Proof.
  apply (merged_declaration_order Samples.w_index
           (reported Samples.w_index Samples.results_index)
           Samples.results_index Samples.pkg_index).
  - vm_compute. reflexivity.
  - reflexivity.
  - reflexivity.
  - reflexivity.
  - reflexivity.
  - distinct_keys.
  - distinct_keys.
Defined.

(** C4 as stated fails: with [lodash] and [b] under [dependencies] and a
    package named [7] under [devDependencies], nothing ignored, the
    verdicts come as 7, lodash, b, not in the order of the [dependencies]
    group followed by the [devDependencies] group. *)
Lemma merged_declaration_order_counterexample :
  read_manifest Samples.w_index = Ok Samples.pkg_index
  /\ loadConfig Samples.w_index = Ok default_config
  /\ scanDependencies Samples.w_index
     = Ok (Samples.results_index,
           reported Samples.w_index Samples.results_index)
  /\ map name Samples.results_index = ["7"; "lodash"; "b"]
  /\ declaration_order Samples.deps_index Samples.devDeps_index
     = ["lodash"; "b"; "7"]
  /\ map name Samples.results_index
     <> declaration_order Samples.deps_index Samples.devDeps_index.
Proof.
  split; [reflexivity|]. split; [reflexivity|].
  split; [vm_compute; reflexivity|]. split; [reflexivity|].
  split; [reflexivity|]. vm_compute. discriminate.
Qed.

(** ** Reading the report back *)

Lemma value_ind_elements (P : value -> Prop) :
  P VUndefined -> P VNull -> (forall b, P (VBool b)) ->
  (forall z, P (VNum z)) -> (forall s, P (VStr s)) ->
  (forall xs, Forall P xs -> P (VArr xs)) ->
  (forall fs, P (VObj fs)) ->
  forall v, P v.
Proof.
  intros HU HN HB HZ HS HA HO. fix IH 1.
  intros [| |b|z|s|xs|fs];
    [exact HU|exact HN|apply HB|apply HZ|apply HS| |apply HO].
  apply HA. induction xs as [|x xs IHxs]; constructor; [apply IH|exact IHxs].
Qed.

Lemma to_string_join (xs : list value) :
  to_string (VArr xs) = join_with "," xs.
Proof.
  simpl. induction xs as [|x xs IH]; [reflexivity|].
  simpl. rewrite IH. destruct xs; destruct x; reflexivity.
Qed.

Lemma join_with_map (sep : string) (g : value -> value) (xs : list value) :
  Forall (fun x => element_string (g x) = element_string x) xs ->
  join_with sep (map g xs) = join_with sep xs.
Proof.
  induction 1 as [|x xs Hx HF IH]; [reflexivity|].
  simpl. rewrite Hx, IH. destruct xs; reflexivity.
Qed.

(** Serialisation changes neither how a value prints nor how it tests. *)
Lemma to_string_json_image (v : value) :
  to_string (json_image v) = to_string v.
Proof.
  induction v as [| |b|z|s|xs IH|fs] using value_ind_elements;
    try reflexivity.
  change (json_image (VArr xs))
    with (VArr (map (fun x => match x with
                              | VUndefined => VNull
                              | _ => json_image x
                              end) xs)).
  rewrite !to_string_join. apply join_with_map.
  eapply Forall_impl; [|exact IH]. intros x Hx.
  destruct x; try reflexivity; exact Hx.
Qed.

Lemma truthy_json_image (v : value) : truthy (json_image v) = truthy v.
Proof. destruct v; reflexivity. Qed.

Lemma defined_false (v : value) : defined v = false -> v = VUndefined.
Proof. destruct v; simpl; congruence. Qed.

Lemma or_else_json_image (v d : value) :
  to_string (or_else (json_image v) d) = to_string (or_else v d).
Proof.
  unfold or_else. rewrite truthy_json_image.
  destruct (truthy v); [apply to_string_json_image|reflexivity].
Qed.

(** Each field of a verdict reads back as its serialised value; a field
    that was [undefined] reads back as [undefined]. *)
Lemma written_fields (r : verdict) :
  get_prop (written r) "name" = Ok (VStr (name r))
  /\ get_prop (written r) "version" = Ok (json_image (version r))
  /\ get_prop (written r) "latest" = Ok (json_image (latest r))
  /\ get_prop (written r) "isOutdated" = Ok (VBool (isOutdated r))
  /\ get_prop (written r) "hasVulnerability"
     = Ok (json_image (hasVulnerability r))
  /\ get_prop (written r) "license" = Ok (json_image (license r))
  /\ get_prop (written r) "isLicenseAllowed"
     = Ok (VBool (isLicenseAllowed r)).
Proof.
  unfold written. rewrite json_image_verdict_object.
  unfold drop_undefined. simpl.
  destruct (defined (json_image (version r))) eqn:E1;
    destruct (defined (json_image (latest r))) eqn:E2;
    destruct (defined (json_image (hasVulnerability r))) eqn:E3;
    destruct (defined (json_image (license r))) eqn:E4;
    try apply defined_false in E1; try apply defined_false in E2;
    try apply defined_false in E3; try apply defined_false in E4;
    simpl; rewrite ?E1, ?E2, ?E3, ?E4; repeat split; reflexivity.
Qed.

Lemma flagged_isOutdated (r : verdict) :
  flagged "isOutdated" (written r) = Ok (isOutdated r).
Proof.
  unfold flagged. destruct (written_fields r) as [_ [_ [_ [-> _]]]].
  reflexivity.
Qed.

Lemma flagged_hasVulnerability (r : verdict) :
  flagged "hasVulnerability" (written r)
  = Ok (truthy (hasVulnerability r)).
Proof.
  unfold flagged. destruct (written_fields r) as [_ [_ [_ [_ [-> _]]]]].
  simpl. now rewrite truthy_json_image.
Qed.

Lemma not_flagged_isLicenseAllowed (r : verdict) :
  not_flagged "isLicenseAllowed" (written r)
  = Ok (negb (isLicenseAllowed r)).
Proof.
  unfold not_flagged.
  destruct (written_fields r) as [_ [_ [_ [_ [_ [_ ->]]]]]]. reflexivity.
Qed.

Lemma filter_values_map {A : Type} (f : A -> value) (p : A -> bool)
  (callback : value -> result bool) (l : list A) :
  (forall a, callback (f a) = Ok (p a)) ->
  filter_values callback (map f l) = Ok (map f (filter p l)).
Proof.
  intros H. induction l as [|a l IH]; simpl; [reflexivity|].
  rewrite H, IH. simpl. destruct (p a); reflexivity.
Qed.

Lemma for_each_map {A B : Type} (f : A -> value) (g : A -> B)
  (callback : value -> result B) (l : list A) :
  (forall a, callback (f a) = Ok (g a)) ->
  for_each callback (map f l) = Ok (map g l).
Proof.
  intros H. induction l as [|a l IH]; simpl; [reflexivity|].
  now rewrite H, IH.
Qed.

Lemma truthy_number_of (n : nat) :
  truthy (number_of n) = negb (Nat.eqb n 0).
Proof. destruct n; reflexivity. Qed.

Lemma read_report_reported (w : world) (results : list verdict) :
  read_report (reported w results) = Ok (VArr (map written results)).
Proof.
  unfold read_report, readJson, reported, writeJson. cbn [files].
  rewrite String.eqb_refl. cbn [JSON_parse try_catch].
  now rewrite json_image_results.
Qed.

Lemma loadConfig_reported (w : world) (results : list verdict) :
  loadConfig (reported w results) = loadConfig w.
Proof. reflexivity. Qed.

Lemma string_app_assoc (a b c : string) : (a ++ b) ++ c = a ++ (b ++ c).
Proof. induction a as [|ch a IH]; simpl; [reflexivity|now rewrite IH]. Qed.

Lemma print_outdated (r : verdict) :
  (name <- get_prop (written r) "name" ;;
   version <- get_prop (written r) "version" ;;
   latest <- get_prop (written r) "latest" ;;
   Ok (Plain, to_string name ++ ": " ++ to_string version
              ++ " -> " ++ to_string latest))
  = Ok (outdated_line r).
Proof.
  destruct (written_fields r) as [-> [-> [-> _]]]. cbn [bind].
  unfold outdated_line. now rewrite !to_string_json_image.
Qed.


Lemma detail_section_written (r : verdict) :
  detail_section (written r) = Ok (verdict_section r).
Proof.
  unfold detail_section.
  destruct (written_fields r) as [-> [-> [-> [_ [-> [-> ->]]]]]].
  cbn [bind]. unfold verdict_section.
  rewrite !to_string_json_image, or_else_json_image. reflexivity.
Qed.

Lemma checkOutdated_of_report (w : world) (results : list verdict) :
  read_report w = Ok (VArr (map written results)) ->
  checkOutdated w = Ok (outdated_lines results).
Proof.
  intros Hrep. unfold checkOutdated. rewrite Hrep. cbn [bind].
  unfold filter_method.
  rewrite (filter_values_map written isOutdated) by apply flagged_isOutdated.
  cbn [bind]. rewrite length_map, truthy_number_of, negb_involutive.
  unfold outdated_lines.
  destruct (filter isOutdated results) as [|r rs]; [reflexivity|].
  cbn [List.length Nat.eqb].
  rewrite (for_each_map written outdated_line) by apply print_outdated.
  reflexivity.
Qed.

(** X1.  After a scan, the [outdated] command prints exactly the verdicts
    of that scan that are outdated, in order, or the all-clear line when
    there is none. *)
Theorem checkOutdated_after_scan (w w' : world) (results : list verdict) :
  scanDependencies w = Ok (results, w') ->
  checkOutdated w' = Ok (outdated_lines results).
Proof.
  intros H. apply scanDependencies_inv in H. destruct H as [_ ->].
  apply checkOutdated_of_report, read_report_reported.
Qed.

Lemma checkOutdated_after_scan_witness :
  checkOutdated (reported Samples.w_lodash [Samples.r_lodash])
  = Ok [(Cyan, "Outdated Packages:"); (Plain, "lodash: 4.17.0 -> 4.17.21")].
Proof.
  apply (checkOutdated_after_scan Samples.w_lodash _ [Samples.r_lodash]).
  vm_compute. reflexivity.
Defined.




Lemma generateReport_of_report (now : string) (w : world)
  (results : list verdict) :
  read_report w = Ok (VArr (map written results)) ->
  generateReport now w = Ok (report_markdown now results, write_markdown w).
Proof.
  intros Hrep. unfold generateReport. rewrite Hrep. cbn [bind].
  cbn [get_prop]. unfold indexed_get. cbn [String.eqb Ascii.eqb Bool.eqb].
  cbn [bind]. unfold filter_method, forEach_method.
  rewrite (filter_values_map written isOutdated) by apply flagged_isOutdated.
  rewrite (filter_values_map written
             (fun r => truthy (hasVulnerability r)))
    by apply flagged_hasVulnerability.
  rewrite (filter_values_map written (fun r => negb (isLicenseAllowed r)))
    by apply not_flagged_isLicenseAllowed.
  rewrite (for_each_map written verdict_section)
    by apply detail_section_written.
  cbn [bind]. rewrite !length_map. unfold report_markdown, count, number_of.
  rewrite !string_app_assoc. reflexivity.
Qed.



Lemma read_report_missing (w : world) :
  files w REPORT_FILE = None \/ files w REPORT_FILE = Some Unparseable ->
  read_report w = Ok (VArr []).
Proof.
  unfold read_report, readJson. intros [-> | ->]; reflexivity.
Qed.

(** X4.  With no report file, or one that does not parse, the three
    commands that read it do not fail: [outdated] and [licenses] print
    their all-clear line, whatever the config is, and [report] renders an
    empty report. *)
Theorem report_commands_without_report (now : string) (w : world) :
  files w REPORT_FILE = None \/ files w REPORT_FILE = Some Unparseable ->
  checkOutdated w = Ok [(Green, "No outdated packages found!")]
  /\ checkLicenses w = Ok [(Green, "All licenses are compliant!")]
  /\ generateReport now w = Ok (report_markdown now [], write_markdown w).
Proof.
  intros H. apply read_report_missing in H. split; [|split].
  - unfold checkOutdated. rewrite H. reflexivity.
  - unfold checkLicenses. destruct (loadConfig_total w) as [c ->].
    cbn [bind]. rewrite H. reflexivity.
  - now apply (generateReport_of_report now w []).
Qed.

Lemma report_commands_without_report_witness :
  checkOutdated Samples.w_bare_config
  = Ok [(Green, "No outdated packages found!")]
  /\ checkLicenses Samples.w_bare_config
     = Ok [(Green, "All licenses are compliant!")]
  /\ generateReport "now" Samples.w_bare_config
     = Ok (report_markdown "now" [], write_markdown Samples.w_bare_config).
Proof.
  apply (report_commands_without_report "now" Samples.w_bare_config).
  left. reflexivity.
Defined.

Lemma flagged_error (field : string) (dep : value) (e : error) :
  flagged field dep = Throw e -> e = TypeError.
Proof.
  unfold flagged. destruct (get_prop dep field) eqn:E; simpl; [discriminate|].
  intros H. injection H as <-. eapply get_prop_error; eauto.
Qed.

Lemma filter_values_null (callback : value -> result bool) (xs : list value) :
  (forall x e, callback x = Throw e -> e = TypeError) ->
  callback VNull = Throw TypeError ->
  In VNull xs ->
  filter_values callback xs = Throw TypeError.
Proof.
  intros Herr Hnull. induction xs as [|x xs IH]; [contradiction|].
  intros Hin. simpl. destruct (callback x) as [keep|e] eqn:E; simpl.
  - destruct Hin as [->|Hin]; [congruence|]. now rewrite IH.
  - apply Herr in E. now subst.
Qed.

Lemma not_flagged_error (field : string) (dep : value) (e : error) :
  not_flagged field dep = Throw e -> e = TypeError.
Proof.
  unfold not_flagged.
  destruct (get_prop dep field) eqn:E; simpl; [discriminate|].
  intros H. injection H as <-. eapply get_prop_error; eauto.
Qed.

(** X5.  The commands that read the report do not check its shape: a
    report file that parses to anything but an array, or to an array with a
    [null] element, makes each of them fail with a TypeError. *)
Theorem report_commands_need_array (now : string) (w : world) (v : value) :
  files w REPORT_FILE = Some (Parsed v) ->
  (forall xs, v = VArr xs -> In VNull xs) ->
  checkOutdated w = Throw TypeError
  /\ checkLicenses w = Throw TypeError
  /\ generateReport now w = Throw TypeError.
Proof.
  intros Hfile Hshape.
  assert (Hrep : read_report w = Ok v).
  { unfold read_report, readJson. now rewrite Hfile. }
  assert (Hout : filter_method v (flagged "isOutdated") = Throw TypeError).
  { destruct v; try reflexivity. simpl.
    apply filter_values_null;
      [intros x e; apply flagged_error|reflexivity|now apply Hshape]. }
  assert (Hlic : filter_method v (not_flagged "isLicenseAllowed")
                 = Throw TypeError).
  { destruct v; try reflexivity. simpl.
    apply filter_values_null;
      [intros x e; apply not_flagged_error|reflexivity|now apply Hshape]. }
  split; [|split].
  - unfold checkOutdated. rewrite Hrep. cbn [bind]. now rewrite Hout.
  - unfold checkLicenses. destruct (loadConfig_total w) as [c ->].
    cbn [bind]. rewrite Hrep. cbn [bind]. now rewrite Hlic.
  - unfold generateReport. rewrite Hrep. cbn [bind].
    destruct (get_prop v "length") as [total|e] eqn:E; cbn [bind].
    + now rewrite Hout.
    + apply get_prop_error in E. now subst.
Qed.

Lemma report_commands_need_array_witness :
  checkOutdated Samples.w_report_object = Throw TypeError
  /\ checkLicenses Samples.w_report_object = Throw TypeError
  /\ generateReport "now" Samples.w_report_object = Throw TypeError.
Proof.
  apply (report_commands_need_array "now" _ (VObj [])).
  - reflexivity.
  - intros xs H. discriminate H.
Defined.

(** ** More on the scan *)

Section Rescan.

Variable w : world.
Variable report : value.

Let w' := writeJson w REPORT_FILE report.

Lemma scan_loop_rewritten (config vulnerabilities : value) (es : props)
  (acc : list verdict) :
  scan_loop w' config vulnerabilities es acc
  = scan_loop w config vulnerabilities es acc.
Proof.
  revert acc. induction es as [|e es IH]; intros acc; [reflexivity|].
  simpl.
  change (scan_entry w' config vulnerabilities e)
    with (scan_entry w config vulnerabilities e).
  destruct (scan_entry w config vulnerabilities e) as [[r|]|err]; simpl;
    [apply IH|apply IH|reflexivity].
Qed.

(** The scan reads neither the report nor anything else it writes. *)
Lemma scan_results_rewritten : scan_results w' = scan_results w.
Proof.
  rewrite !scan_results_unfold.
  change (declared w') with (declared w).
  destruct (declared w) as [es|e]; [|reflexivity]. cbn [bind].
  change (loadConfig w') with (loadConfig w).
  destruct (loadConfig w) as [c|e]; [|reflexivity]. cbn [bind].
  change (runNpmAudit w') with (runNpmAudit w).
  destruct (runNpmAudit w) as [vu|e]; [|reflexivity]. cbn [bind].
  apply scan_loop_rewritten.
Qed.

End Rescan.

(** X6.  A scan does not depend on the report a previous scan left: run
    again on the world the first run produced, it gives the same verdicts
    and leaves every file as the first run left it. *)
Theorem scan_again (w w' : world) (results : list verdict) :
  scanDependencies w = Ok (results, w') ->
  scanDependencies w' = Ok (results, reported w' results)
  /\ (forall p, files (reported w' results) p = files w' p).
Proof.
  intros H. apply scanDependencies_inv in H. destruct H as [H ->]. split.
  - apply scanDependencies_results. unfold reported.
    now rewrite scan_results_rewritten.
  - intros p. unfold reported, writeJson. cbn [files].
    destruct (String.eqb p REPORT_FILE); reflexivity.
Qed.

Lemma scan_again_witness :
  scanDependencies (reported Samples.w_lodash [Samples.r_lodash])
  = Ok ([Samples.r_lodash],
        reported (reported Samples.w_lodash [Samples.r_lodash])
          [Samples.r_lodash])
  /\ (forall p,
        files (reported (reported Samples.w_lodash [Samples.r_lodash])
                 [Samples.r_lodash]) p
        = files (reported Samples.w_lodash [Samples.r_lodash]) p).
Proof.
  apply (scan_again Samples.w_lodash). vm_compute. reflexivity.
Defined.

(** X7.  A package whose registry request is rejected gets a verdict with
    latest and license "Unknown", and is flagged neither as outdated nor as
    license non-compliant. *)
Theorem unreachable_package_verdict (w w' : world) (results : list verdict)
  (r : verdict) :
  scanDependencies w = Ok (results, w') -> In r results ->
  registry w (name r) = None ->
  latest r = Unknown /\ license r = Unknown
  /\ isOutdated r = false /\ isLicenseAllowed r = true.
Proof.
  intros Hscan Hin Hreg.
  destruct (scan_verdict_produced _ _ _ _ Hscan Hin)
    as [es [c [vu [n [v [_ [_ Hp]]]]]]].
  destruct Hp as [Hn _ _ Hfetch Hout _ [al [allowed [_ [_ Hflag]]]]].
  subst n. unfold fetchPackageInfo, axios_get in Hfetch.
  rewrite Hreg in Hfetch. simpl in Hfetch. injection Hfetch as Hl Hlic.
  rewrite <- Hl in Hout. rewrite <- Hlic in Hflag.
  repeat split; auto.
  - rewrite Hout. simpl. apply andb_false_r.
  - rewrite Hflag. simpl. apply orb_true_r.
Qed.

Lemma unreachable_package_verdict_witness :
  latest Samples.r_left_pad = Unknown /\ license Samples.r_left_pad = Unknown
  /\ isOutdated Samples.r_left_pad = false
  /\ isLicenseAllowed Samples.r_left_pad = true.
Proof.
  apply (unreachable_package_verdict Samples.w_left_pad
           (reported Samples.w_left_pad [Samples.r_left_pad])
           [Samples.r_left_pad]).
  - vm_compute. reflexivity.
  - simpl. auto.
  - reflexivity.
Defined.

(** X8.  When the registry answers with tags and a version list that has
    the declared version, the fetch returns the latest tag and the license
    of the declared version's own entry, or "Unknown" when that entry has
    no license or a falsy one. *)
Theorem fetchPackageInfo_declared_version (w : world) (n : string)
  (v : value) (data tags versions entry : props) :
  registry w n = Some (VObj data) ->
  lookup "dist-tags" data = Some (VObj tags) ->
  lookup "versions" data = Some (VObj versions) ->
  lookup (to_string v) versions = Some (VObj entry) ->
  fetchPackageInfo w n v
  = Ok (or_undefined (lookup "latest" tags),
        or_else (or_undefined (lookup "license" entry)) Unknown).
Proof.
  intros Hreg Htags Hvers Hentry.
  unfold fetchPackageInfo, axios_get. rewrite Hreg. simpl.
  rewrite Htags. simpl. rewrite Hvers. simpl. rewrite Hentry. reflexivity.
Qed.

Lemma fetchPackageInfo_declared_version_witness :
  fetchPackageInfo Samples.w_demo "badlib" (VStr "2.0.0")
  = Ok (VStr "2.0.0", VStr "GPL-3.0").
Proof.
  apply (fetchPackageInfo_declared_version Samples.w_demo "badlib"
           (VStr "2.0.0")
           [("dist-tags", VObj [("latest", VStr "2.0.0")]);
            ("versions",
             VObj [("2.0.0", VObj [("license", VStr "GPL-3.0")])])]
           [("latest", VStr "2.0.0")]
           [("2.0.0", VObj [("license", VStr "GPL-3.0")])]
           [("license", VStr "GPL-3.0")]);
    reflexivity.
Defined.

(** X9.  When the audit command fails, prints something that is not JSON,
    or prints an object without a [vulnerabilities] member, the scan still
    completes as it would, and no verdict carries a severity:
    [hasVulnerability] is [null], or [undefined] for a name that is a
    member of [Object.prototype]; either way it is falsy, so nothing is
    flagged. *)
Theorem failed_audit_flags_nothing (w w' : world) (results : list verdict)
  (r : verdict) :
  npm_audit w = None \/ npm_audit w = Some Unparseable
  \/ (exists fs, npm_audit w = Some (Parsed (VObj fs))
                 /\ lookup "vulnerabilities" fs = None) ->
  scanDependencies w = Ok (results, w') -> In r results ->
  hasVulnerability r
  = (if member (name r) Object_prototype then VUndefined else VNull)
  /\ truthy (hasVulnerability r) = false.
Proof.
  intros Haudit Hscan Hin.
  assert (Hvu : runNpmAudit w = Ok (VObj [])).
  { unfold runNpmAudit, execSync_npm_audit.
    destruct Haudit as [->|[->|[fs [-> Hno]]]]; try reflexivity.
    cbn [bind JSON_parse try_catch get_prop]. rewrite Hno. reflexivity. }
  destruct (scan_verdict_produced _ _ _ _ Hscan Hin)
    as [es [c [vu [n [v [[_ _ Hvu'] [_ Hp]]]]]]].
  rewrite Hvu in Hvu'. injection Hvu' as <-.
  destruct Hp as [Hn _ _ _ _ [found [Hfound Hsev]] _]. subst n.
  cbn [get_prop lookup] in Hfound. injection Hfound as <-.
  unfold inherited in Hsev. cbn [member existsb orb] in Hsev.
  destruct (member (name r) Object_prototype); cbn [truthy] in Hsev;
    [change (get_prop (VObj []) "severity") with (@Ok value VUndefined)
       in Hsev|];
    injection Hsev as <-; split; reflexivity.
Qed.

Lemma failed_audit_flags_nothing_witness :
  hasVulnerability Samples.r_badlib_unaudited
  = (if member (name Samples.r_badlib_unaudited) Object_prototype
     then VUndefined else VNull)
  /\ truthy (hasVulnerability Samples.r_badlib_unaudited) = false.
Proof.
  apply (failed_audit_flags_nothing Samples.w_no_audit
           (reported Samples.w_no_audit [Samples.r_badlib_unaudited])
           [Samples.r_badlib_unaudited]).
  - left. reflexivity.
  - vm_compute. reflexivity.
  - simpl. auto.
Defined.

(** X10.  Without a manifest, or with one that does not parse, the scan
    completes with no verdict and writes an empty report, whatever the
    config file holds. *)
Theorem scan_without_manifest (w : world) :
  files w PACKAGE_FILE = None \/ files w PACKAGE_FILE = Some Unparseable ->
  scanDependencies w = Ok ([], reported w [])
  /\ files (reported w []) REPORT_FILE = Some (Parsed (VArr [])).
Proof.
  intros H. split; [|reflexivity].
  apply scanDependencies_results. rewrite scan_results_unfold.
  assert (Hd : declared w = Ok []).
  { unfold declared, read_manifest, readJson.
    destruct H as [-> | ->]; reflexivity. }
  rewrite Hd. cbn [bind].
  destruct (loadConfig_total w) as [c ->]. cbn [bind].
  destruct (runNpmAudit_truthy w) as [vu [-> _]]. reflexivity.
Qed.

Lemma scan_without_manifest_witness :
  scanDependencies Samples.w_no_manifest
  = Ok ([], reported Samples.w_no_manifest [])
  /\ files (reported Samples.w_no_manifest []) REPORT_FILE
     = Some (Parsed (VArr [])).
Proof.
  apply (scan_without_manifest Samples.w_no_manifest). left. reflexivity.
Defined.

Lemma scan_loop_error (w : world) (config vulnerabilities : value)
  (es : props) (acc : list verdict) (e : error) :
  scan_loop w config vulnerabilities es acc = Throw e -> e = TypeError.
Proof.
  revert acc. induction es as [|x es IH]; intros acc; simpl; [discriminate|].
  destruct (scan_entry w config vulnerabilities x) as [[r|]|err] eqn:E;
    simpl; eauto.
  intros H. injection H as <-. eapply scan_entry_error; eauto.
Qed.

(** X11.  Up to the point where the report is written, the only way a scan
    fails is a TypeError: no failure to read the manifest or the config, to
    run the audit or to reach the registry ever surfaces. *)
Theorem scan_fails_by_TypeError_only (w : world) (e : error) :
  scan_results w = Throw e -> e = TypeError.
Proof.
  intros E. rewrite scan_results_unfold in E.
  unfold declared, merged_dependencies in E.
  destruct (manifest_read w) as [pkg [Hpkg _]]. rewrite Hpkg in E.
  cbn [bind] in E.
  destruct (get_prop pkg "dependencies") as [a|e1] eqn:E1; cbn [bind] in E;
    [|injection E as <-; eapply get_prop_error; eauto].
  destruct (get_prop pkg "devDependencies") as [b|e2] eqn:E2;
    cbn [bind] in E; [|injection E as <-; eapply get_prop_error; eauto].
  destruct (loadConfig_total w) as [c Hc]. rewrite Hc in E. cbn [bind] in E.
  destruct (runNpmAudit_truthy w) as [vu [Hvu _]]. rewrite Hvu in E.
  cbn [bind] in E. eapply scan_loop_error; eauto.
Qed.

Lemma scan_fails_by_TypeError_only_witness : TypeError = TypeError.
Proof.
  apply (scan_fails_by_TypeError_only Samples.w_bare_config TypeError).
  vm_compute. reflexivity.
Defined.


(** X13.  The license of a verdict is never empty: it is a truthy value of
    the registry or the string "Unknown", so every verdict written to the
    report has a license. *)
Theorem verdict_license_present (w w' : world) (results : list verdict)
  (r : verdict) :
  scanDependencies w = Ok (results, w') -> In r results ->
  truthy (license r) = true
  /\ get_prop (written r) "license" = Ok (json_image (license r))
  /\ defined (json_image (license r)) = true.
Proof.
  intros Hscan Hin.
  destruct (scan_verdict_produced _ _ _ _ Hscan Hin)
    as [es [c [vu [n [v [_ [_ Hp]]]]]]].
  destruct Hp as [_ _ _ Hfetch _ _ _].
  apply fetchPackageInfo_license_truthy in Hfetch.
  split; [exact Hfetch|]. split; [apply written_fields|].
  rewrite defined_json_image. destruct (license r); auto; discriminate.
Qed.

Lemma verdict_license_present_witness :
  truthy (license Samples.r_left_pad) = true
  /\ get_prop (written Samples.r_left_pad) "license"
     = Ok (json_image (license Samples.r_left_pad))
  /\ defined (json_image (license Samples.r_left_pad)) = true.
Proof.
  apply (verdict_license_present Samples.w_left_pad
           (reported Samples.w_left_pad [Samples.r_left_pad])
           [Samples.r_left_pad]).
  - vm_compute. reflexivity.
  - simpl. auto.
Defined.

(** X14.  Without a config file, or with one that does not parse, nothing
    is skipped: a completed scan has one verdict per declaration of the
    merged manifest, with its name and version, in order. *)
Theorem default_config_reports_all (w w' : world) (results : list verdict)
  (es : props) :
  files w CONFIG_FILE = None \/ files w CONFIG_FILE = Some Unparseable ->
  scanDependencies w = Ok (results, w') ->
  declared w = Ok es ->
  map (fun r => (name r, version r)) results = es.
Proof.
  intros Hfile Hscan Hes.
  destruct (scan_sequence _ _ _ Hscan) as [es' [c [Hes' [Hc Hseq]]]].
  rewrite Hes in Hes'. injection Hes' as <-.
  assert (c = default_config) as ->.
  { unfold loadConfig, readJson in Hc.
    destruct Hfile as [Hf|Hf]; rewrite Hf in Hc; now injection Hc as <-. }
  rewrite Hseq. now apply filter_all.
Qed.

Lemma default_config_reports_all_witness :
  map (fun r => (name r, version r)) [Samples.r_lodash]
  = [("lodash", VStr "4.17.0")].
Proof.
  apply (default_config_reports_all Samples.w_lodash
           (reported Samples.w_lodash [Samples.r_lodash])).
  - left. reflexivity.
  - vm_compute. reflexivity.
  - reflexivity.
Defined.

(** ** Updating the config *)

Lemma json_image_object (fs : props) :
  json_image (VObj fs)
  = VObj (drop_undefined
            (ordered_entries
               (map (fun e => (fst e, json_image (snd e))) fs))).
Proof.
  cbn [json_image]. do 3 f_equal.
  induction fs as [|[k x] fs IH]; [reflexivity|].
  cbn [map fst snd]. now rewrite IH.
Qed.

Lemma lookup_map_values (f : value -> value) (k : string) (fs : props) :
  lookup k (map (fun e => (fst e, f (snd e))) fs)
  = option_map f (lookup k fs).
Proof.
  induction fs as [|[k0 v0] fs IH]; [reflexivity|]. simpl.
  destruct (String.eqb k0 k); [reflexivity|exact IH].
Qed.

Lemma lookup_app (k : string) (a b : props) :
  lookup k (a ++ b)%list
  = match lookup k a with
    | Some v => Some v
    | None => lookup k b
    end.
Proof.
  induction a as [|[k0 v0] a IH]; [reflexivity|]. simpl.
  destruct (String.eqb k0 k); [reflexivity|exact IH].
Qed.

Lemma lookup_filter_key (p : string * value -> bool) (k : string)
  (fs : props) :
  (forall v, p (k, v) = true) ->
  lookup k (filter p fs) = lookup k fs.
Proof.
  intros Hp. induction fs as [|[k0 v0] fs IH]; [reflexivity|]. simpl.
  destruct (String.eqb k0 k) eqn:E.
  - apply String.eqb_eq in E. subst k0. rewrite Hp. simpl.
    now rewrite String.eqb_refl.
  - destruct (p (k0, v0)); simpl; rewrite ?E; exact IH.
Qed.

(** Enumeration keeps what a key that is no array index gives. *)
Lemma lookup_ordered_named (k : string) (fs : props) :
  array_index k = None -> lookup k (ordered_entries fs) = lookup k fs.
Proof.
  intros Hk. unfold ordered_entries. rewrite lookup_app.
  assert (Hnone : lookup k (map snd (index_sort (index_part fs))) = None).
  { apply lookup_None. intros Hin. apply in_map_iff in Hin.
    destruct Hin as [e [<- He]]. apply in_map_iff in He.
    destruct He as [x [<- Hx]].
    apply index_sort_In, index_part_In in Hx. destruct Hx as [_ Hx].
    congruence. }
  rewrite Hnone. apply lookup_filter_key.
  intros v. unfold is_index. simpl. now rewrite Hk.
Qed.

Lemma lookup_drop_undefined (k : string) (v : value) (fs : props) :
  lookup k fs = Some v -> defined v = true ->
  lookup k (drop_undefined fs) = Some v.
Proof.
  unfold drop_undefined. intros Hl Hd.
  induction fs as [|[k0 v0] fs IH]; [discriminate|]. simpl in *.
  destruct (String.eqb k0 k) eqn:E.
  - injection Hl as ->. rewrite Hd. simpl. now rewrite E.
  - destruct (defined v0); simpl; rewrite ?E; now apply IH.
Qed.

(** A member that is no array index and holds a defined value reads back
    from the saved object as its serialised value. *)
Lemma get_prop_json_image (k : string) (v : value) (fs : props) :
  array_index k = None -> lookup k fs = Some v -> defined v = true ->
  get_prop (json_image (VObj fs)) k = Ok (json_image v).
Proof.
  intros Hk Hl Hd. rewrite json_image_object. cbn [get_prop].
  rewrite (lookup_drop_undefined k (json_image v)).
  - reflexivity.
  - now rewrite lookup_ordered_named, lookup_map_values, Hl.
  - now rewrite defined_json_image.
Qed.

Lemma json_image_pushed (xs : list value) (x : string) :
  exists ys,
    json_image (VArr (xs ++ [VStr x])%list) = VArr (ys ++ [VStr x])%list.
Proof.
  eexists. cbn [json_image]. rewrite map_app. reflexivity.
Qed.

Lemma push_field_inv (config config' : value) (field x : string) :
  String.eqb field "length" = false -> array_index field = None ->
  push_field config field x = Ok config' ->
  exists fs xs,
    config = VObj fs
    /\ lookup field fs = Some (VArr xs)
    /\ config' = VObj (set_prop fs field (VArr (xs ++ [VStr x])%list)).
Proof.
  intros Hlen Hidx. unfold push_field. intros H.
  bind_inv H. rename a into target, Ha into Hget.
  bind_inv H. rename a into target', Ha into Hpush.
  destruct target; try discriminate Hpush.
  simpl in Hpush. injection Hpush as <-.
  destruct config as [| |b|z|s|ys|fs]; cbn [get_prop] in Hget;
    try discriminate Hget; injection Hget as Hget.
  - now apply inherited_not_array in Hget.
  - now apply inherited_not_array in Hget.
  - unfold indexed_get in Hget. rewrite Hlen, Hidx in Hget.
    now apply inherited_not_array in Hget.
  - unfold indexed_get in Hget. rewrite Hlen, Hidx in Hget.
    now apply inherited_not_array in Hget.
  - injection H as <-. exists fs, xs. split; [reflexivity|]. split; auto.
    destruct (lookup field fs); [congruence|].
    now apply inherited_not_array in Hget.
Qed.

Lemma updateConfig_inv (w w' : world) (opts : options) :
  updateConfig w opts = Ok w' ->
  exists config config1 config2,
    loadConfig w = Ok config
    /\ match given (ignore opts) with
       | Some x => push_field config "ignored" x
       | None => Ok config
       end = Ok config1
    /\ match given (addLicense opts) with
       | Some x => push_field config1 "allowedLicenses" x
       | None => Ok config1
       end = Ok config2
    /\ w' = writeJson w CONFIG_FILE config2.
Proof.
  unfold updateConfig, saveConfig. intros H.
  bind_inv H. rename a into config, Ha into Hc.
  bind_inv H. rename a into config1, Ha into H1.
  bind_inv H. rename a into config2, Ha into H2.
  injection H as <-. exists config, config1, config2. auto.
Qed.

Lemma loadConfig_saved (w : world) (config : value) :
  loadConfig (writeJson w CONFIG_FILE config) = Ok (json_image config).
Proof.
  unfold loadConfig, readJson, writeJson. cbn [files].
  now rewrite String.eqb_refl.
Qed.

(** After an update that adds [x] to the ignored packages, the saved config
    loads with an [ignored] array that ends with [x]. *)
Lemma update_ignore_loaded (w w' : world) (opts : options) (x : string) :
  updateConfig w opts = Ok w' -> given (ignore opts) = Some x ->
  exists config ys,
    loadConfig w' = Ok config
    /\ get_prop config "ignored" = Ok (VArr (ys ++ [VStr x])%list).
Proof.
  intros H Hx. apply updateConfig_inv in H.
  destruct H as [c [c1 [c2 [_ [H1 [H2 ->]]]]]]. rewrite Hx in H1.
  apply push_field_inv in H1; [|reflexivity|reflexivity].
  destruct H1 as [fs [xs [-> [Hl ->]]]].
  destruct (json_image_pushed xs x) as [ys Hys].
  exists (json_image c2), ys. split; [apply loadConfig_saved|].
  rewrite <- Hys.
  destruct (given (addLicense opts)) as [l|].
  - apply push_field_inv in H2; [|reflexivity|reflexivity].
    destruct H2 as [fs1 [zs [Hfs1 [_ ->]]]]. injection Hfs1 as <-.
    apply get_prop_json_image; [reflexivity| |reflexivity].
    rewrite !lookup_set_prop. reflexivity.
  - injection H2 as <-.
    apply get_prop_json_image; [reflexivity| |reflexivity].
    rewrite lookup_set_prop. reflexivity.
Qed.

(** After an update that adds the license [l], the saved config loads with
    an [allowedLicenses] array that ends with [l]. *)
Lemma update_license_loaded (w w' : world) (opts : options) (l : string) :
  updateConfig w opts = Ok w' -> given (addLicense opts) = Some l ->
  exists config zs,
    loadConfig w' = Ok config
    /\ get_prop config "allowedLicenses" = Ok (VArr (zs ++ [VStr l])%list).
Proof.
  intros H Hl. apply updateConfig_inv in H.
  destruct H as [c [c1 [c2 [_ [_ [H2 ->]]]]]]. rewrite Hl in H2.
  apply push_field_inv in H2; [|reflexivity|reflexivity].
  destruct H2 as [fs [xs [-> [_ ->]]]].
  destruct (json_image_pushed xs l) as [zs Hzs].
  exists (json_image (VObj (set_prop fs "allowedLicenses"
                              (VArr (xs ++ [VStr l])%list)))), zs.
  split; [apply loadConfig_saved|]. rewrite <- Hzs.
  apply get_prop_json_image; [reflexivity| |reflexivity].
  rewrite lookup_set_prop. reflexivity.
Qed.

(** X15.  A config update that completes saves a config that loads back
    with the new package at the end of [ignored] and the new license at the
    end of [allowedLicenses], and touches no file but the config file. *)
Theorem updateConfig_round_trip (w w' : world) (opts : options) :
  updateConfig w opts = Ok w' ->
  (forall x, given (ignore opts) = Some x ->
     exists config ys,
       loadConfig w' = Ok config
       /\ get_prop config "ignored" = Ok (VArr (ys ++ [VStr x])%list))
  /\ (forall l, given (addLicense opts) = Some l ->
        exists config zs,
          loadConfig w' = Ok config
          /\ get_prop config "allowedLicenses" = Ok (VArr (zs ++ [VStr l])%list))
  /\ (forall p, String.eqb p CONFIG_FILE = false -> files w' p = files w p).
Proof.
  intros H. split; [|split].
  - intros x Hx. eapply update_ignore_loaded; eauto.
  - intros l Hl. eapply update_license_loaded; eauto.
  - intros p Hp. apply updateConfig_inv in H.
    destruct H as [c [c1 [c2 [_ [_ [_ ->]]]]]].
    unfold writeJson. cbn [files]. now rewrite Hp.
Qed.

Lemma updateConfig_round_trip_witness :
  (forall x, given (ignore Samples.ignore_jest) = Some x ->
     exists config ys,
       loadConfig Samples.w_demo_ignoring_jest = Ok config
       /\ get_prop config "ignored" = Ok (VArr (ys ++ [VStr x])%list))
  /\ (forall l, given (addLicense Samples.ignore_jest) = Some l ->
        exists config zs,
          loadConfig Samples.w_demo_ignoring_jest = Ok config
          /\ get_prop config "allowedLicenses"
             = Ok (VArr (zs ++ [VStr l])%list))
  /\ (forall p, String.eqb p CONFIG_FILE = false ->
        files Samples.w_demo_ignoring_jest p = files Samples.w_demo p).
Proof.
  apply (updateConfig_round_trip Samples.w_demo). vm_compute. reflexivity.
Defined.

(** X16.  After a config update that adds a package to the ignored ones, a
    scan reports no verdict for that package. *)
Theorem ignore_then_scan (w w1 w2 : world) (opts : options) (x : string)
  (results : list verdict) :
  updateConfig w opts = Ok w1 -> given (ignore opts) = Some x ->
  scanDependencies w1 = Ok (results, w2) ->
  forall r, In r results -> name r <> x.
Proof.
  intros Hup Hx Hscan r Hin Hname.
  destruct (update_ignore_loaded _ _ _ _ Hup Hx) as [c [ys [Hc Hget]]].
  destruct (scan_verdict_produced _ _ _ _ Hscan Hin)
    as [es [c' [vu [n [v [[_ Hc' _] [_ Hp]]]]]]].
  rewrite Hc in Hc'. injection Hc' as <-.
  destruct Hp as [Hn _ [ign [Hign Hinc]] _ _ _ _]. subst n.
  rewrite Hget in Hign. injection Hign as <-.
  simpl in Hinc. injection Hinc as Hinc.
  assert (Hmem : array_includes (ys ++ [VStr x]) (VStr (name r)) = true).
  { apply array_includes_str, in_or_app. right. left. now rewrite Hname. }
  congruence.
Qed.

Lemma ignore_then_scan_witness : name Samples.r_badlib <> "jest".
Proof.
  apply (ignore_then_scan Samples.w_demo Samples.w_demo_ignoring_jest
           (reported Samples.w_demo_ignoring_jest Samples.results_without_jest)
           Samples.ignore_jest "jest" Samples.results_without_jest).
  - vm_compute. reflexivity.
  - reflexivity.
  - vm_compute. reflexivity.
  - simpl. auto.
Defined.

(** X17.  After a config update that adds a license, a scan allows every
    verdict whose license is that string. *)
Theorem add_license_then_scan (w w1 w2 : world) (opts : options) (l : string)
  (results : list verdict) :
  updateConfig w opts = Ok w1 -> given (addLicense opts) = Some l ->
  scanDependencies w1 = Ok (results, w2) ->
  forall r, In r results -> license r = VStr l -> isLicenseAllowed r = true.
Proof.
  intros Hup Hl Hscan r Hin Hlic.
  destruct (update_license_loaded _ _ _ _ Hup Hl) as [c [zs [Hc Hget]]].
  destruct (scan_verdict_produced _ _ _ _ Hscan Hin)
    as [es [c' [vu [n [v [[_ Hc' _] [_ Hp]]]]]]].
  rewrite Hc in Hc'. injection Hc' as <-.
  destruct Hp as [_ _ _ _ _ _ [al [allowed [Hal [Hinc Hflag]]]]].
  rewrite Hget in Hal. injection Hal as <-.
  simpl in Hinc. injection Hinc as <-.
  rewrite Hflag, Hlic. apply orb_true_iff. left.
  apply array_includes_str, in_or_app. right. now left.
Qed.

Lemma add_license_then_scan_witness :
  isLicenseAllowed Samples.r_badlib_allowed = true.
Proof.
  apply (add_license_then_scan Samples.w_badlib_scanned Samples.w_badlib_gpl
           (reported Samples.w_badlib_gpl [Samples.r_badlib_allowed])
           Samples.add_gpl "GPL-3.0" [Samples.r_badlib_allowed]).
  - vm_compute. reflexivity.
  - reflexivity.
  - vm_compute. reflexivity.
  - simpl. auto.
  - reflexivity.
Defined.




Example stale_license_listing :
  checkLicenses Samples.w_badlib_gpl
  = Ok [(Cyan, "Non-Compliant Licenses:");
        (Plain, "badlib: GPL-3.0 (Allowed: MIT, Apache-2.0, BSD-2-Clause, "
                ++ "BSD-3-Clause, GPL-3.0)")].
Proof. vm_compute. reflexivity. Qed.

Lemma for_each_head_throws {A : Type} (callback : value -> result A)
  (x : value) (xs : list value) :
  callback x = Throw TypeError -> for_each callback (x :: xs) = Throw TypeError.
Proof. intros H. simpl. now rewrite H. Qed.

(** X19.  The [licenses] command asks the config for its allow-list only
    when it has a verdict to list.  With a config whose [allowedLicenses]
    is not an array, it prints the all-clear line when every verdict of the
    report is license-allowed, and fails with a TypeError otherwise. *)
Theorem checkLicenses_needs_allow_list (w w' : world)
  (results : list verdict) (config : value) :
  scanDependencies w = Ok (results, w') ->
  loadConfig w = Ok config ->
  (forall xs, get_prop config "allowedLicenses" <> Ok (VArr xs)) ->
  checkLicenses w'
  = if forallb isLicenseAllowed results
    then Ok [(Green, "All licenses are compliant!")]
    else Throw TypeError.
Proof.
  intros H Hcfg Hshape. apply scanDependencies_inv in H.
  destruct H as [_ ->].
  unfold checkLicenses. rewrite loadConfig_reported, Hcfg. cbn [bind].
  rewrite read_report_reported. cbn [bind]. unfold filter_method.
  rewrite (filter_values_map written (fun r => negb (isLicenseAllowed r)))
    by apply not_flagged_isLicenseAllowed.
  cbn [bind]. rewrite length_map, truthy_number_of, negb_involutive.
  assert (Hall : forallb isLicenseAllowed results
                 = match filter (fun r => negb (isLicenseAllowed r)) results
                   with [] => true | _ :: _ => false end).
  { clear. induction results as [|r rs IH]; [reflexivity|]. simpl.
    destruct (isLicenseAllowed r); simpl; [exact IH|reflexivity]. }
  rewrite Hall.
  destruct (filter (fun r => negb (isLicenseAllowed r)) results) as [|r rs];
    [reflexivity|].
  cbn [List.length Nat.eqb map]. rewrite for_each_head_throws; [reflexivity|].
  destruct (written_fields r) as [-> [_ [_ [_ [_ [-> _]]]]]]. cbn [bind].
  destruct (get_prop config "allowedLicenses") as [al|e] eqn:E; cbn [bind].
  - destruct al; try reflexivity. exfalso. now apply (Hshape xs).
  - apply get_prop_error in E. now subst.
Qed.

Lemma checkLicenses_needs_allow_list_witness :
  checkLicenses
    (reported (Samples.with_config (VObj [("ignored", VArr []);
                                          ("allowedLicenses", VStr "MIT")])
                 Samples.w_badlib)
       [Samples.r_badlib])
  = if forallb isLicenseAllowed [Samples.r_badlib]
    then Ok [(Green, "All licenses are compliant!")]
    else Throw TypeError.
Proof.
  apply (checkLicenses_needs_allow_list
           (Samples.with_config (VObj [("ignored", VArr []);
                                       ("allowedLicenses", VStr "MIT")])
              Samples.w_badlib) _ [Samples.r_badlib]
           (VObj [("ignored", VArr []); ("allowedLicenses", VStr "MIT")])).
  - vm_compute. reflexivity.
  - reflexivity.
  - intros xs H. discriminate H.
Defined.

Lemma declared_merged (w : world) (es : props) :
  declared w = Ok es -> exists deps devDeps, es = merged_entries deps devDeps.
Proof.
  unfold declared, merged_dependencies.
  destruct (read_manifest w) as [pkg|e]; cbn [bind]; [|discriminate].
  destruct (get_prop pkg "dependencies") as [a|e]; cbn [bind];
    [|discriminate].
  destruct (get_prop pkg "devDependencies") as [b|e]; cbn [bind];
    [|discriminate].
  intros H. injection H as <-. exists a, b. reflexivity.
Qed.

(** X20.  No package is reported twice: the names of the verdicts of a
    completed scan are pairwise distinct. *)
Theorem verdict_names_distinct (w w' : world) (results : list verdict) :
  scanDependencies w = Ok (results, w') -> NoDup (map name results).
Proof.
  intros Hscan.
  destruct (scan_sequence _ _ _ Hscan) as [es [c [Hes [_ Hseq]]]].
  assert (Hnames : map name results = filter (kept c) (keys es)).
  { unfold keys. rewrite <- map_fst_filter, <- Hseq, map_map. reflexivity. }
  rewrite Hnames. apply NoDup_filter.
  destruct (declared_merged _ _ Hes) as [a [b ->]].
  unfold merged_entries. simpl entries.
  apply ordered_entries_NoDup, merged_NoDup.
Qed.

Lemma verdict_names_distinct_witness :
  NoDup (map name Samples.results_ignoring).
Proof.
  apply (verdict_names_distinct Samples.w_ignoring
           (reported Samples.w_ignoring Samples.results_ignoring)).
  vm_compute. reflexivity.
Defined.
